(** * Boat energy simulator: the power-balance solver and its driver

    A shallow embedding of [lib/boat_model.py] and [lib/competition_model.py].

    Numbers.  The program computes on Python floats (binary64).  The main
    model reads them as exact rationals ([Q]): every arithmetic operation is
    the exact one, there is no rounding, no infinity and no NaN.  Numeric
    equality is [==] ([Qeq]), the equality of rational numbers; [Q]'s
    fractions are not kept in lowest terms, so [==] and not [=] is what "the
    same number" means.

    The exact reading is faithful for what does not depend on rounding:
    which branch is taken and what is compared with what, which field is
    written from which value, what is raised and when, and bounds that the
    rounding of one operation cannot cross (rounding is monotone).  It is not
    faithful for equalities between the results of different computations:
    [energy - (energy - maximum_energy)] is [maximum_energy] on rationals and
    only close to it on binary64.  For the battery, where this matters, the
    file has a second model on the kernel's binary64 floats ([Battery64]),
    and the statements below say on which reading they stand; a lemma headed
    "in exact arithmetic" holds of the program only up to rounding.

    Effects.  The battery is a mutable object and every method may raise.
    A computation is a function from the state before to an outcome and the
    state after; a raised exception keeps the mutations made before it, as
    in Python.

    Types.  Every method is decorated with [@typechecked], which rejects an
    argument of the wrong type; all values here have their types, so the
    decorator never fires.  The two [print] calls of [_check_input] write to
    the standard output and are left out. *)

From Stdlib Require Import QArith Qabs Qminmax ZArith List String Lia Lqa.
From Corelib Require Import PrimFloat.
Import ListNotations.

Set Warnings "-inexact-float".

Local Open Scope Q_scope.

(** ** Exceptions and the state-and-exception monad *)

Inductive exn : Type :=
| ZeroDivisionError
| IndexError
| ValueError (message : string)
| External (description : string).

Inductive result (A : Type) : Type :=
| Ok (a : A)
| Raise (e : exn).

Arguments Ok {A} a.
Arguments Raise {A} e.

Definition M (S A : Type) : Type := S -> result A * S.

Definition ret {S A} (a : A) : M S A := fun s => (Ok a, s).

Definition bind {S A B} (c : M S A) (k : A -> M S B) : M S B :=
  fun s =>
    match c s with
    | (Ok a, s') => k a s'
    | (Raise e, s') => (Raise e, s')
    end.

Definition get {S} : M S S := fun s => (Ok s, s).
Definition put {S} (s : S) : M S unit := fun _ => (Ok tt, s).
Definition modify {S} (f : S -> S) : M S unit := fun s => (Ok tt, f s).
Definition lift {S A} (r : result A) : M S A := fun s => (r, s).

Declare Scope monad_scope.
Delimit Scope monad_scope with monad.
Notation "x <- c ;; k" := (bind c (fun x => k))
  (at level 61, c at next level, right associativity) : monad_scope.
Notation "c ;; k" := (bind c (fun _ => k))
  (at level 61, right associativity) : monad_scope.
Local Open Scope monad_scope.

(** ** Python's operators on floats, read on rationals *)

(** [x / y] on built-in floats: raises on a zero divisor.  (A
    [numpy.float64] operand would give [nan] or [inf] with a warning
    instead; the divisors here are [dt], the timebase 3600 and
    [maximum_energy], and every property that needs the quotient assumes
    the divisor is not zero.) *)
Definition py_div (x y : Q) : result Q :=
  if Qeq_dec y 0 then Raise ZeroDivisionError else Ok (x / y).

(** [x > y] and [x < y] as decisions. *)
Definition gt_dec (x y : Q) : {y < x} + {x <= y} := Qlt_le_dec y x.
Definition lt_dec (x y : Q) : {x < y} + {y <= x} := Qlt_le_dec x y.

(** [np.clip(x, lo, hi)] is [minimum(maximum(x, lo), hi)]. *)
Definition np_clip (x lo hi : Q) : Q := Qmin (Qmax x lo) hi.

(** ** [lib.utils] *)

(** Modelled from the spec: [lib/utils.py] is not among the sources.  The
    spec (4.4) gives the energy of a power held for a time as
    [power * dt / 3600], the last number being the [timebase] argument. *)
Definition naive_energy (power time timebase : Q) : result Q :=
  py_div (power * time) timebase.

(** Modelled from the spec: [lib/utils.py] is not among the sources.  The
    spec (4.4) converts an energy back to a power "via the inverse of the
    same time-power relation": [energy * 3600 / dt]. *)
Definition naive_power (energy time timebase : Q) : result Q :=
  py_div (energy * timebase) time.

(** ** Panel *)

Module Panel.

Record t : Type := mk {
  efficiency : Q;
  area : Q;
  maximum_output_power : Q
}.

Definition solve_output (self : t) (irradiation : Q) : Q :=
  let input_power := irradiation * self.(area) in
  let output_power := input_power * self.(efficiency) in
  if gt_dec output_power self.(maximum_output_power)
  then self.(maximum_output_power)
  else output_power.

End Panel.

(** ** Battery *)

Module Battery.

Record t : Type := mk {
  efficiency : Q;
  energy : Q;
  soc : Q;
  minimum_soc : Q;
  maximum_energy : Q;
  minimum_energy : Q;
  maximum_power : Q
}.

Definition set_energy (self : t) (v : Q) : t :=
  mk self.(efficiency) v self.(soc) self.(minimum_soc)
     self.(maximum_energy) self.(minimum_energy) self.(maximum_power).

Definition set_soc (self : t) (v : Q) : t :=
  mk self.(efficiency) self.(energy) v self.(minimum_soc)
     self.(maximum_energy) self.(minimum_energy) self.(maximum_power).

Definition set_maximum_power (self : t) (v : Q) : t :=
  mk self.(efficiency) self.(energy) self.(soc) self.(minimum_soc)
     self.(maximum_energy) self.(minimum_energy) v.

(** [Battery.__init__] *)
Definition init (soc_0 minimum_soc efficiency maximum_energy maximum_power : Q) : t :=
  {| efficiency := efficiency;
     soc := soc_0;
     minimum_soc := minimum_soc;
     energy := soc_0 * maximum_energy;
     maximum_energy := maximum_energy;
     minimum_energy := maximum_energy * minimum_soc;
     maximum_power := maximum_power |}.

(** [_charge]: the energy is updated first, then clamped at
    [maximum_energy]; what was refused is given back as a power. *)
Definition _charge (dt power : Q) : M t Q :=
  e <- lift (naive_energy power dt 3600) ;;
  modify (fun self => set_energy self (self.(energy) + e * self.(efficiency))) ;;
  self <- get ;;
  if gt_dec self.(energy) self.(maximum_energy) then
    let exceeded_energy := self.(energy) - self.(maximum_energy) in
    put (set_energy self (self.(energy) - exceeded_energy)) ;;
    exceeded_power <- lift (naive_power exceeded_energy dt 3600) ;;
    ret (power - exceeded_power)
  else
    ret power.

(** [_discharge]: the mirror image, clamped at [minimum_energy]. *)
Definition _discharge (dt power : Q) : M t Q :=
  e <- lift (naive_energy power dt 3600) ;;
  modify (fun self => set_energy self (self.(energy) - e * self.(efficiency))) ;;
  self <- get ;;
  if lt_dec self.(energy) self.(minimum_energy) then
    let exceeded_energy := self.(minimum_energy) - self.(energy) in
    put (set_energy self (self.(energy) + exceeded_energy)) ;;
    exceeded_power <- lift (naive_power exceeded_energy dt 3600) ;;
    ret (power - exceeded_power)
  else
    ret power.

(** [solve]: charge on a positive target, discharge otherwise (zero
    included), then [self.soc = self.energy / self.maximum_energy]. *)
Definition solve (dt target_power : Q) : M t Q :=
  power <- (if gt_dec target_power 0
            then _charge dt (Qabs target_power)
            else (p <- _discharge dt (Qabs target_power) ;; ret (- p))) ;;
  self <- get ;;
  s <- lift (py_div self.(energy) self.(maximum_energy)) ;;
  put (set_soc self s) ;;
  ret power.

(** The energy invariant of the spec's data model. *)
Definition invariant (self : t) : Prop :=
  self.(minimum_energy) == self.(maximum_energy) * self.(minimum_soc)
  /\ self.(minimum_energy) <= self.(energy)
  /\ self.(energy) <= self.(maximum_energy).

End Battery.

(** ** Battery, on binary64 *)

(** The same three methods with the arithmetic of the program: every
    operation is the correctly rounded binary64 one.  Used where a property
    depends on rounding. *)
Module Battery64.

Local Open Scope float_scope.

Definition py_div (x y : float) : result float :=
  if PrimFloat.eqb y 0 then Raise ZeroDivisionError else Ok (x / y).

(** Modelled from the spec: [lib/utils.py] is not among the sources; see
    [naive_energy] and [naive_power] above. *)
Definition naive_energy (power time timebase : float) : result float :=
  py_div (power * time) timebase.

Definition naive_power (energy time timebase : float) : result float :=
  py_div (energy * timebase) time.

Record t : Type := mk {
  efficiency : float;
  energy : float;
  soc : float;
  minimum_soc : float;
  maximum_energy : float;
  minimum_energy : float;
  maximum_power : float
}.

Definition set_energy (self : t) (v : float) : t :=
  mk self.(efficiency) v self.(soc) self.(minimum_soc)
     self.(maximum_energy) self.(minimum_energy) self.(maximum_power).

Definition set_soc (self : t) (v : float) : t :=
  mk self.(efficiency) self.(energy) v self.(minimum_soc)
     self.(maximum_energy) self.(minimum_energy) self.(maximum_power).

Definition init
    (soc_0 minimum_soc efficiency maximum_energy maximum_power : float) : t :=
  {| efficiency := efficiency;
     soc := soc_0;
     minimum_soc := minimum_soc;
     energy := soc_0 * maximum_energy;
     maximum_energy := maximum_energy;
     minimum_energy := maximum_energy * minimum_soc;
     maximum_power := maximum_power |}.

Definition _charge (dt power : float) : M t float :=
  e <- lift (naive_energy power dt 3600) ;;
  modify (fun self => set_energy self (self.(energy) + e * self.(efficiency))) ;;
  self <- get ;;
  if PrimFloat.ltb self.(maximum_energy) self.(energy) then
    let exceeded_energy := self.(energy) - self.(maximum_energy) in
    put (set_energy self (self.(energy) - exceeded_energy)) ;;
    exceeded_power <- lift (naive_power exceeded_energy dt 3600) ;;
    ret (power - exceeded_power)
  else
    ret power.

Definition _discharge (dt power : float) : M t float :=
  e <- lift (naive_energy power dt 3600) ;;
  modify (fun self => set_energy self (self.(energy) - e * self.(efficiency))) ;;
  self <- get ;;
  if PrimFloat.ltb self.(energy) self.(minimum_energy) then
    let exceeded_energy := self.(minimum_energy) - self.(energy) in
    put (set_energy self (self.(energy) + exceeded_energy)) ;;
    exceeded_power <- lift (naive_power exceeded_energy dt 3600) ;;
    ret (power - exceeded_power)
  else
    ret power.

Definition solve (dt target_power : float) : M t float :=
  power <- (if PrimFloat.ltb 0 target_power
            then _charge dt (PrimFloat.abs target_power)
            else (p <- _discharge dt (PrimFloat.abs target_power) ;;
                  ret (- p))) ;;
  self <- get ;;
  s <- lift (py_div self.(energy) self.(maximum_energy)) ;;
  put (set_soc self s) ;;
  ret power.

End Battery64.

(** ** The stateless stages *)

Module Other.
Record t : Type := mk { power : Q }.
End Other.

Module ESC.

Record t : Type := mk {
  efficiency : Q;
  maximum_input_power : Q
}.

Definition solve_input (self : t) (throttle : Q) : Q :=
  let throttle := np_clip throttle 0 1 in
  let input_power := throttle * self.(maximum_input_power) in
  if gt_dec input_power self.(maximum_input_power)
  then self.(maximum_input_power)
  else input_power.

Definition solve_output (self : t) (input_power : Q) : Q :=
  input_power * self.(efficiency).

End ESC.

Module Motor.

Record t : Type := mk {
  efficiency : Q;
  maximum_input_power : Q
}.

Definition solve_input (self : t) (input_power : Q) : Q :=
  if gt_dec input_power self.(maximum_input_power)
  then self.(maximum_input_power)
  else input_power.

Definition solve_output (self : t) (input_power : Q) : Q :=
  input_power * self.(efficiency).

End Motor.

Module Propulsion.

Record t : Type := mk {
  efficiency : Q;
  maximum_input_power : Q
}.

Definition solve_input (self : t) (input_power : Q) : Q :=
  if gt_dec input_power self.(maximum_input_power)
  then self.(maximum_input_power)
  else input_power.

Definition solve_output (self : t) (input_power : Q) : Q :=
  input_power * self.(efficiency).

End Propulsion.

Module Hull.

Record t : Type := mk { speed_over_power_constant : Q }.

Definition solve_output (self : t) (propulsion_power : Q) : Q :=
  propulsion_power * self.(speed_over_power_constant).

End Hull.

(** ** [lib.boat_data.BoatOutputData] *)

(** Modelled from the spec: [lib/boat_data.py] is not among the sources.  The
    record has the thirteen fields that the constructor call at the end of
    [Boat.run] names, one number each (the spec's "one record per timestep"). *)
Record BoatOutputData : Type := mkBoatOutputData {
  pv_output_power : Q;
  battery_stored_energy : Q;
  battery_soc : Q;
  battery_output_power : Q;
  esc_input_power : Q;
  esc_output_power : Q;
  motor_output_power : Q;
  propulsive_output_power : Q;
  hull_speed : Q;
  pv_target_power : Q;
  esc_target_power : Q;
  battery_target_power : Q;
  motor_target_throttle : Q
}.

(** ** Boat *)

Module Boat.

Record t : Type := mk {
  panel : Panel.t;
  battery : Battery.t;
  circuits : Other.t;
  esc : ESC.t;
  motor : Motor.t;
  propulsion : Propulsion.t;
  hull : Hull.t
}.

Definition set_battery (self : t) (b : Battery.t) : t :=
  mk self.(panel) b self.(circuits) self.(esc) self.(motor)
     self.(propulsion) self.(hull).

(** A method call on [self.battery]: the battery object is mutated in
    place, also when the call raises. *)
Definition on_battery {A} (c : M Battery.t A) : M t A :=
  fun self =>
    let (r, b) := c self.(battery) in (r, set_battery self b).

(** The target of the propulsion chain (step 1): three input clamps. *)
Definition target_esc_input_power (self : t) (motor_throttle : Q) : Q :=
  Propulsion.solve_input self.(propulsion)
    (Motor.solve_input self.(motor)
       (ESC.solve_input self.(esc) motor_throttle)).

(** [run].  On binary64 the sums of steps 1, 3 and 4 are rounded; the
    properties below rest on the two comparisons, on which value is written
    to which field and on the order of the steps, not on those sums being
    exact. *)
Definition run (dt irradiation motor_throttle : Q) : M t BoatOutputData :=
  self <- get ;;
  (* Step 1 - solve for battery *)
  let target_circuits_input_power := self.(circuits).(Other.power) in
  let target_pv_output_power := Panel.solve_output self.(panel) irradiation in
  let target_esc_input_power := target_esc_input_power self motor_throttle in
  let target_battery_power :=
    target_pv_output_power - target_esc_input_power
    - target_circuits_input_power in
  actual_battery_power <- on_battery (Battery.solve dt target_battery_power) ;;
  self <- get ;;
  (* Step 2 - solve for base circuits *)
  let actual_circuits_input_power := target_circuits_input_power in
  (* Step 3 - solve for pv *)
  let actual_pv_output_power :=
    actual_battery_power + target_esc_input_power
    + actual_circuits_input_power in
  let actual_pv_output_power :=
    if gt_dec actual_pv_output_power target_pv_output_power
    then target_pv_output_power else actual_pv_output_power in
  (* Step 4 - solve for motor *)
  let actual_esc_input_power :=
    actual_pv_output_power - actual_battery_power
    - actual_circuits_input_power in
  let actual_esc_input_power :=
    if gt_dec actual_esc_input_power target_esc_input_power
    then target_esc_input_power else actual_esc_input_power in
  (* Step 5 - propagate the power that moves the boat *)
  let actual_esc_output_power :=
    ESC.solve_output self.(esc) actual_esc_input_power in
  let actual_motor_output_power :=
    Motor.solve_output self.(motor) actual_esc_output_power in
  let actual_propulsive_output_power :=
    Propulsion.solve_output self.(propulsion) actual_motor_output_power in
  let actual_hull_speed :=
    Hull.solve_output self.(hull) actual_propulsive_output_power in
  ret {| pv_output_power := actual_pv_output_power;
         battery_stored_energy := self.(battery).(Battery.energy);
         battery_soc := self.(battery).(Battery.soc);
         battery_output_power := actual_battery_power;
         esc_input_power := actual_esc_input_power;
         esc_output_power := actual_esc_output_power;
         motor_output_power := actual_esc_output_power;
         propulsive_output_power := actual_propulsive_output_power;
         hull_speed := actual_hull_speed;
         pv_target_power := target_pv_output_power;
         esc_target_power := target_battery_power;
         battery_target_power := target_esc_input_power;
         motor_target_throttle := motor_throttle |}.

End Boat.

(** ** Competition *)

(** [l[0]] and [l[-1]] on a Python list, [df.iloc[0]] and [df.iloc[-1]] on a
    data frame: [IndexError] when there is no element. *)
Definition index_first {A} (l : list A) : result A :=
  match l with
  | [] => Raise IndexError
  | x :: _ => Ok x
  end.

Fixpoint index_last {A} (l : list A) : result A :=
  match l with
  | [] => Raise IndexError
  | [x] => Ok x
  | _ :: l' => index_last l'
  end.

Module Competition.
Section Driver.

(** What [lib.boat_data] and [lib.event_model] declare and this file does
    not have: a row of the input series with its timestamp, an event with
    the two ends of its window, the event's output and the energy
    controller.  A timestamp is an integer (a [datetime64] counts
    nanoseconds); [start] and [end_] are [event.data.start] and
    [event.data.end] after [Timestamp(...).to_datetime64()], taken to be
    valid timestamps.  The input series is the list of its rows, in order,
    and [.pipe(BoatInputDataSet)] gives the selected rows back. *)
Context {Row Event EventOutputData EnergyController : Type}.
Variable time : Row -> Z.
Variable start end_ : Event -> Z.

(** [event.run(boat_input_data, boat, energy_controller)], an external
    collaborator.  It may mutate the boat and the controller, and ends with
    an output or with an exception of its own, which is kept apart from the
    exceptions this module raises ([External]). *)
Variable Event_run :
  Event -> list Row -> Boat.t * EnergyController ->
  (EventOutputData + string) * (Boat.t * EnergyController).

Record CompetitionResult : Type := mkCompetitionResult {
  result_name : string;
  results : list EventOutputData
}.

Record t : Type := mk {
  name : string;
  events : list Event
}.

(** The objects [run] is handed and may mutate, and a ghost counter of the
    calls of [event.run] made so far. *)
Record state : Type := mkState {
  boat : Boat.t;
  energy_controller : EnergyController;
  event_runs : nat
}.

Definition call_event_run (event : Event) (rows : list Row)
  : M state EventOutputData :=
  fun s =>
    match Event_run event rows (s.(boat), s.(energy_controller)) with
    | (inl out, (b, c)) => (Ok out, mkState b c (S s.(event_runs)))
    | (inr d, (b, c)) => (Raise (External d), mkState b c (S s.(event_runs)))
    end.

(** [input_data[(input_data.time >= lo) & (input_data.time <= hi)]] *)
Definition select (lo hi : Z) (input_data : list Row) : list Row :=
  filter (fun r => (time r >=? lo)%Z && (time r <=? hi)%Z) input_data.

Definition _check_input (input_data : list Row)
    (competition_start competition_end : Z) : result unit :=
  match index_first input_data with
  | Raise e => Raise e
  | Ok first =>
      if (time first >? competition_start)%Z then
        Raise (ValueError "Given data can't start after the first event's start")
      else
        match index_last input_data with
        | Raise e => Raise e
        | Ok last =>
            if (time last <? competition_end)%Z then
              Raise (ValueError "Given data can't end before the first event's end.")
            else Ok tt
        end
  end.

(** The [for event in self.events] loop, [results] being the list built so
    far. *)
Fixpoint run_events (events : list Event) (input_data : list Row)
    (results : list EventOutputData) : M state (list EventOutputData) :=
  match events with
  | [] => ret results
  | event :: rest =>
      let event_start := start event in
      let event_end := end_ event in
      let event_input_data := select event_start event_end input_data in
      out <- call_event_run event event_input_data ;;
      run_events rest input_data (results ++ [out])
  end.

Definition run (self : t) (input_data : list Row) : M state CompetitionResult :=
  first <- lift (index_first self.(events)) ;;
  let competition_start := start first in
  last <- lift (index_last self.(events)) ;;
  let competition_end := end_ last in
  lift (_check_input input_data competition_start competition_end) ;;
  let input_data := select competition_start competition_end input_data in
  results <- run_events self.(events) input_data [] ;;
  ret {| result_name := self.(name); results := results |}.

(** The input series does not cover the competition window: its first
    timestamp is after the first event's start, or its last timestamp is
    before the last event's end. *)
Definition uncovered (self : t) (input_data : list Row) : Prop :=
  exists first_event last_event first_row last_row,
    index_first self.(events) = Ok first_event
    /\ index_last self.(events) = Ok last_event
    /\ index_first input_data = Ok first_row
    /\ index_last input_data = Ok last_row
    /\ ((time first_row > start first_event)%Z
        \/ (time last_row < end_ last_event)%Z).

End Driver.
End Competition.

(** * Vocabulary of the properties *)

(** The energy after the update of [_charge], before any clamping. *)
Definition charged (b : Battery.t) (dt power : Q) : Q :=
  Battery.energy b + power * dt / 3600 * Battery.efficiency b.

(** The energy after the update of [_discharge], before any clamping. *)
Definition discharged (b : Battery.t) (dt power : Q) : Q :=
  Battery.energy b - power * dt / 3600 * Battery.efficiency b.

(** The battery of the spec's end-to-end example:
    [Battery(soc_0=0.5, minimum_soc=0.1, efficiency=0.95,
             maximum_energy=1000, maximum_power=500)]. *)
Definition example_battery : Battery.t := Battery.init 0.5 0.1 0.95 1000 500.

(** The last three lines of [solve], after a branch that returned [p] in
    state [b1]. *)
Definition recompute_soc (b1 : Battery.t) : Battery.t :=
  Battery.set_soc b1 (Battery.energy b1 / Battery.maximum_energy b1).

(** A battery built with a negative efficiency,
    [Battery(soc_0=0.1, minimum_soc=0.1, efficiency=-1.0,
             maximum_energy=1000, maximum_power=500)],
    and one with no capacity,
    [Battery(soc_0=0.5, minimum_soc=0.1, efficiency=0.95,
             maximum_energy=0, maximum_power=500)]. *)
Definition draining_battery : Battery.t := Battery.init 0.1 0.1 (-1) 1000 500.
Definition empty_battery : Battery.t := Battery.init 0.5 0.1 0.95 0 500.

(** Two batteries that hold the same values in every field but
    [maximum_power]. *)
Definition agree_except_maximum_power (b1 b2 : Battery.t) : Prop :=
  Battery.efficiency b1 = Battery.efficiency b2
  /\ Battery.energy b1 = Battery.energy b2
  /\ Battery.soc b1 = Battery.soc b2
  /\ Battery.minimum_soc b1 = Battery.minimum_soc b2
  /\ Battery.maximum_energy b1 = Battery.maximum_energy b2
  /\ Battery.minimum_energy b1 = Battery.minimum_energy b2.

(** The energy that the clamp of [_charge] throws away. *)
Definition rejected_energy (b : Battery.t) (dt power : Q) : Q :=
  Qmax 0 (charged b dt power - Battery.maximum_energy b).

(** What a charge followed by the discharge of the accepted power can cost:
    the rejected energy was refused at full value, but the power given back
    for it is drawn again at the efficiency. *)
Definition round_trip_loss (b : Battery.t) (dt power : Q) : Q :=
  (1 - Battery.efficiency b) * rejected_energy b dt power.

(** A battery declared with an efficiency above one:
    [Battery(soc_0=0.5, minimum_soc=0.1, efficiency=2.0,
             maximum_energy=1000, maximum_power=500)]. *)
Definition amplifying_battery : Battery.t := Battery.init 0.5 0.1 2 1000 500.

(** The panel of the spec's end-to-end example:
    [Panel(efficiency=0.2, area=2, maximum_output_power=1000)]. *)
Definition example_panel : Panel.t := Panel.mk 0.2 2 1000.

(** The battery's target, step 1 of [run]. *)
Definition target_battery_power (boat : Boat.t) (irradiation motor_throttle : Q) : Q :=
  Panel.solve_output (Boat.panel boat) irradiation
  - Boat.target_esc_input_power boat motor_throttle
  - Other.power (Boat.circuits boat).

(** Steps 3 and 4 of [run], from the power the battery achieved. *)
Definition actual_pv_output_power (boat : Boat.t)
    (irradiation motor_throttle actual_battery_power : Q) : Q :=
  let target_pv := Panel.solve_output (Boat.panel boat) irradiation in
  let pv := actual_battery_power
            + Boat.target_esc_input_power boat motor_throttle
            + Other.power (Boat.circuits boat) in
  if gt_dec pv target_pv then target_pv else pv.

Definition actual_esc_input_power (boat : Boat.t)
    (irradiation motor_throttle actual_battery_power : Q) : Q :=
  let target_esc := Boat.target_esc_input_power boat motor_throttle in
  let esc_in := actual_pv_output_power boat irradiation motor_throttle
                  actual_battery_power
                - actual_battery_power - Other.power (Boat.circuits boat) in
  if gt_dec esc_in target_esc then target_esc else esc_in.

(** The boat of the spec's end-to-end example (panel, battery and a 50 W
    auxiliary load), with a drivetrain of 1000 W stages. *)
Definition example_boat : Boat.t :=
  Boat.mk example_panel example_battery (Other.mk 50)
    (ESC.mk 0.9 1000) (Motor.mk 0.9 1000) (Propulsion.mk 0.5 1000)
    (Hull.mk 0.01).

Definition start_message : string :=
  "Given data can't start after the first event's start".
Definition end_message : string :=
  "Given data can't end before the first event's end.".

(** A stand-in for [lib.event_model], used in the examples below only: an
    event is its window, its run steps the boat once per row (one second, an
    irradiation of 800, the controller being a fixed throttle) and reports
    how many rows it was given. *)
Fixpoint step_boat (throttle : Q) (rows : list Z) (boat : Boat.t)
  : (nat + string) * Boat.t :=
  match rows with
  | [] => (inl 0%nat, boat)
  | _ :: rows' =>
      match Boat.run 1 800 throttle boat with
      | (Ok _, boat') =>
          match step_boat throttle rows' boat' with
          | (inl n, boat'') => (inl (S n), boat'')
          | failed => failed
          end
      | (Raise _, boat') => (inr "the boat stopped"%string, boat')
      end
  end.

Definition window_run (event : Z * Z) (rows : list Z) (w : Boat.t * Q)
  : (nat + string) * (Boat.t * Q) :=
  let (r, boat') := step_boat (snd w) rows (fst w) in (r, (boat', snd w)).

Definition example_input : list Z := [0; 1; 2; 3; 4; 5; 6; 7; 8; 9; 10]%Z.
Definition example_state : Competition.state :=
  Competition.mkState example_boat 1 0.

Definition run_windows :=
  Competition.run (fun t : Z => t) fst snd window_run.

(** Batteries on binary64: [Battery(0.5, 0.1, 0.95, 0.3, 500)],
    [Battery(0.5, 0.1, 0.95, 1536.4, 500)], [Battery(1.0, 0.1, 0.95, 1000,
    500)] (full) and [Battery(0.3, 0.1, 0.95, 1.0, 500)]. *)
Definition small_battery64 : Battery64.t :=
  Battery64.init 0.5 0.1 0.95 0.3 500.
Definition odd_battery64 : Battery64.t :=
  Battery64.init 0.5 0.1 0.95 1536.4 500.
Definition full_battery64 : Battery64.t :=
  Battery64.init 1 0.1 0.95 1000 500.
Definition unit_battery64 : Battery64.t :=
  Battery64.init 0.3 0.1 0.95 1 500.

(** * Properties *)

(** ** The battery's two primitives in closed form *)

Ltac unfold_battery :=
  unfold Battery.solve, Battery._charge, Battery._discharge, bind, lift,
    modify, get, put, ret, naive_energy, naive_power, py_div, gt_dec, lt_dec,
    charged, discharged in *.

Ltac split_and := repeat match goal with |- _ /\ _ => split end.

Ltac decide_3600 :=
  destruct (Qeq_dec 3600 0) as [H3600 | _]; [ discriminate H3600 | ].

Lemma charge_within (b : Battery.t) (dt power : Q) :
  charged b dt power <= Battery.maximum_energy b ->
  Battery._charge dt power b
  = (Ok power, Battery.set_energy b (charged b dt power)).
Proof.
  intros Hle. unfold_battery. decide_3600. cbn.
  destruct (Qlt_le_dec _ _) as [Hlt | _]; [ | reflexivity ].
  exfalso. apply (Qlt_not_le _ _ Hlt). exact Hle.
Qed.

Lemma charge_over (b : Battery.t) (dt power : Q) :
  ~ dt == 0 ->
  Battery.maximum_energy b < charged b dt power ->
  Battery._charge dt power b
  = (Ok (power - (charged b dt power - Battery.maximum_energy b) * 3600 / dt),
     Battery.set_energy b
       (charged b dt power - (charged b dt power - Battery.maximum_energy b))).
Proof.
  intros Hdt Hlt. unfold_battery. decide_3600. cbn.
  destruct (Qlt_le_dec _ _) as [_ | Hle].
  - cbn. destruct (Qeq_dec dt 0) as [H0 | _]; [ contradiction | reflexivity ].
  - exfalso. apply (Qlt_not_le _ _ Hlt). exact Hle.
Qed.

Lemma discharge_within (b : Battery.t) (dt power : Q) :
  Battery.minimum_energy b <= discharged b dt power ->
  Battery._discharge dt power b
  = (Ok power, Battery.set_energy b (discharged b dt power)).
Proof.
  intros Hle. unfold_battery. decide_3600. cbn.
  destruct (Qlt_le_dec _ _) as [Hlt | _]; [ | reflexivity ].
  exfalso. apply (Qlt_not_le _ _ Hlt). exact Hle.
Qed.

Lemma discharge_under (b : Battery.t) (dt power : Q) :
  ~ dt == 0 ->
  discharged b dt power < Battery.minimum_energy b ->
  Battery._discharge dt power b
  = (Ok (power - (Battery.minimum_energy b - discharged b dt power) * 3600 / dt),
     Battery.set_energy b
       (discharged b dt power
        + (Battery.minimum_energy b - discharged b dt power))).
Proof.
  intros Hdt Hlt. unfold_battery. decide_3600. cbn.
  destruct (Qlt_le_dec _ _) as [_ | Hle].
  - cbn. destruct (Qeq_dec dt 0) as [H0 | _]; [ contradiction | reflexivity ].
  - exfalso. apply (Qlt_not_le _ _ Hlt). exact Hle.
Qed.

(** With a time step that is not zero both primitives return. *)
Lemma charge_returns (b : Battery.t) (dt power : Q) :
  ~ dt == 0 ->
  exists p e, Battery._charge dt power b = (Ok p, Battery.set_energy b e).
Proof.
  intros Hdt.
  destruct (Qlt_le_dec (Battery.maximum_energy b) (charged b dt power)) as [H | H].
  - rewrite (charge_over b dt power Hdt H). eauto.
  - rewrite (charge_within b dt power H). eauto.
Qed.

Lemma discharge_returns (b : Battery.t) (dt power : Q) :
  ~ dt == 0 ->
  exists p e, Battery._discharge dt power b = (Ok p, Battery.set_energy b e).
Proof.
  intros Hdt.
  destruct (Qlt_le_dec (discharged b dt power) (Battery.minimum_energy b)) as [H | H].
  - rewrite (discharge_under b dt power Hdt H). eauto.
  - rewrite (discharge_within b dt power H). eauto.
Qed.

(** An energy turned into a power and held for the same time is that energy
    again. *)
Lemma power_of_energy_positive (x dt : Q) :
  0 < dt -> 0 < x -> 0 < x * 3600 / dt.
Proof.
  intros Hdt Hx. apply Qlt_shift_div_l; [ exact Hdt | ]. lra.
Qed.

Lemma naive_energy_of_naive_power (e dt : Q) :
  ~ dt == 0 ->
  exists p e',
    naive_power e dt 3600 = Ok p
    /\ naive_energy p dt 3600 = Ok e'
    /\ e' == e.
Proof.
  intros Hdt. unfold naive_power, naive_energy, py_div. decide_3600.
  destruct (Qeq_dec dt 0) as [H0 | _]; [ contradiction | ].
  do 2 eexists. split; [ reflexivity | ]. split; [ reflexivity | ].
  field. exact Hdt.
Qed.

(** ** Clamping at the two ends of the battery *)

(** In exact arithmetic (what the clamp is written to do).  For [dt > 0]
    and [power >= 0], on a battery that satisfies the
    energy invariant, a charge that would overshoot the capacity
    ([energy + power*dt/3600*efficiency > maximum_energy]) returns an
    achievable power strictly below [power], leaves the stored energy equal to
    [maximum_energy], and the power given back is the excess energy times
    [3600 / dt], the efficiency playing no part in that conversion.  No other
    field of the battery changes. *)
Theorem charge_overshoot_clamps (b : Battery.t) (dt power : Q) :
  0 < dt ->
  0 <= power ->
  Battery.invariant b ->
  Battery.energy b + power * dt / 3600 * Battery.efficiency b
    > Battery.maximum_energy b ->
  exists achievable b',
    Battery._charge dt power b = (Ok achievable, b')
    /\ achievable < power
    /\ Battery.energy b' == Battery.maximum_energy b
    /\ (let exceeded_energy :=
          Battery.energy b + power * dt / 3600 * Battery.efficiency b
          - Battery.maximum_energy b in
        let exceeded_power := exceeded_energy * 3600 / dt in
        achievable == power - exceeded_power)
    /\ b' = Battery.set_energy b (Battery.energy b').
Proof.
  intros Hdt Hpower Hinv Hover.
  assert (Hdt0 : ~ dt == 0) by lra.
  fold (charged b dt power) in Hover |- *.
  rewrite (charge_over b dt power Hdt0 Hover).
  eexists; eexists; split; [ reflexivity | ].
  split; [ | split; [ | split ] ].
  - assert (0 < (charged b dt power - Battery.maximum_energy b) * 3600 / dt)
      by (apply power_of_energy_positive; [ exact Hdt | lra ]).
    lra.
  - cbn. ring.
  - cbn. reflexivity.
  - reflexivity.
Qed.

(** In exact arithmetic (what the clamp is written to do).  For [dt > 0]
    and [power >= 0], on a battery that satisfies the
    energy invariant, a discharge that would breach the floor
    ([energy - power*dt/3600*efficiency < minimum_energy]) returns an
    achievable power strictly below [power] and leaves the stored energy equal
    to [minimum_energy].  No other field of the battery changes. *)
Theorem discharge_breach_clamps (b : Battery.t) (dt power : Q) :
  0 < dt ->
  0 <= power ->
  Battery.invariant b ->
  Battery.energy b - power * dt / 3600 * Battery.efficiency b
    < Battery.minimum_energy b ->
  exists achievable b',
    Battery._discharge dt power b = (Ok achievable, b')
    /\ achievable < power
    /\ Battery.energy b' == Battery.minimum_energy b
    /\ (let exceeded_energy :=
          Battery.minimum_energy b
          - (Battery.energy b - power * dt / 3600 * Battery.efficiency b) in
        let exceeded_power := exceeded_energy * 3600 / dt in
        achievable == power - exceeded_power)
    /\ b' = Battery.set_energy b (Battery.energy b').
Proof.
  intros Hdt Hpower Hinv Hunder.
  assert (Hdt0 : ~ dt == 0) by lra.
  fold (discharged b dt power) in Hunder |- *.
  rewrite (discharge_under b dt power Hdt0 Hunder).
  eexists; eexists; split; [ reflexivity | ].
  split; [ | split; [ | split ] ].
  - assert (0 < (Battery.minimum_energy b - discharged b dt power) * 3600 / dt)
      by (apply power_of_energy_positive; [ exact Hdt | lra ]).
    lra.
  - cbn. ring.
  - cbn. reflexivity.
  - reflexivity.
Qed.

Lemma example_battery_invariant : Battery.invariant example_battery.
Proof. unfold Battery.invariant; cbn; repeat split; lra. Qed.

(** ** The clamps on binary64 *)

(** C2, on the program's arithmetic: the claim fails.
    [Battery(0.5, 0.1, 0.95, 0.3, 500)._charge(60.0, 270.0)] overshoots
    (4.425 Wh against a capacity of 0.3 Wh) and returns 22.5 W, but the clamp
    [self.energy -= exceeded_energy], with [exceeded_energy = self.energy -
    self.maximum_energy], is rounded: the energy left is 0.2999999999999998,
    below [maximum_energy] = 0.3 and not equal to it.
    And on a full battery (1000 Wh) [_charge(1.0, 1e-12)] would overshoot,
    yet the sum rounds back to 1000, no clamp fires and the power returned is
    the power offered, not less. *)
Theorem charge_clamp_misses_maximum :
  fst (Battery64._charge 60 270 small_battery64) = Ok 22.5%float
  /\ Battery64.energy (snd (Battery64._charge 60 270 small_battery64))
     = 0.2999999999999998%float
  /\ Battery64.maximum_energy small_battery64 = 0.3%float
  /\ PrimFloat.ltb
       (Battery64.energy (snd (Battery64._charge 60 270 small_battery64)))
       (Battery64.maximum_energy small_battery64) = true
  /\ Battery64._charge 1 1e-12 full_battery64
     = (Ok 1e-12%float, full_battery64).
Proof. split_and; vm_compute; reflexivity. Qed.

(** C3, on the program's arithmetic: the claim fails.
    [Battery(0.5, 0.1, 0.95, 1536.4, 500)._discharge(3600.0, 1600.1)]
    breaches the floor and returns 694.5650000000002 W, but the clamp
    [self.energy += exceeded_energy], with [exceeded_energy =
    self.minimum_energy - self.energy], is rounded: the energy left is
    153.63999999999999, below [minimum_energy] = 153.64000000000001 and not
    equal to it. *)
Theorem discharge_clamp_misses_minimum :
  fst (Battery64._discharge 3600 1600.1 odd_battery64)
  = Ok 694.5650000000002%float
  /\ Battery64.energy (snd (Battery64._discharge 3600 1600.1 odd_battery64))
     = 153.63999999999999%float
  /\ Battery64.minimum_energy odd_battery64 = 153.64000000000001%float
  /\ PrimFloat.ltb
       (Battery64.energy
          (snd (Battery64._discharge 3600 1600.1 odd_battery64)))
       (Battery64.minimum_energy odd_battery64) = true.
Proof. split_and; vm_compute; reflexivity. Qed.

(** Through [solve] the same two clamps leave the battery outside its
    bounds: above capacity with an SOC above 1, and below the floor with an
    SOC below [minimum_soc]. *)
Example solve_rounds_past_the_bounds :
  (let b' := snd (Battery64.solve 3600 6000.3 odd_battery64) in
   Battery64.energy b' = 1536.4000000000005%float
   /\ PrimFloat.ltb (Battery64.maximum_energy b') (Battery64.energy b') = true
   /\ Battery64.soc b' = 1.0000000000000002%float)
  /\
  (let b' := snd (Battery64.solve 3600 (-1600.1) odd_battery64) in
   PrimFloat.ltb (Battery64.energy b') (Battery64.minimum_energy b') = true
   /\ Battery64.soc b' = 0.09999999999999999%float
   /\ PrimFloat.ltb (Battery64.soc b') (Battery64.minimum_soc b') = true).
Proof. cbv zeta. split_and; vm_compute; reflexivity. Qed.

(** A charge that fits and the discharge of the same power: the energy
    comes back one unit in the last place above where it started. *)
Example round_trip_gains_on_binary64 :
  exists p b1 p' b2,
    Battery64._charge 3600 0.1 unit_battery64 = (Ok p, b1)
    /\ Battery64._discharge 3600 p b1 = (Ok p', b2)
    /\ Battery64.energy unit_battery64 = 0.3%float
    /\ Battery64.energy b2 = 0.30000000000000004%float.
Proof.
  do 4 eexists. split; [ vm_compute; reflexivity | ].
  split; [ vm_compute; reflexivity | ]. split; vm_compute; reflexivity.
Qed.

(** ** [Battery.solve] *)

(** Either primitive writes the [energy] field and nothing else, also when
    it raises. *)
Lemma charge_touches_energy_only (b : Battery.t) (dt power : Q) :
  exists e, snd (Battery._charge dt power b) = Battery.set_energy b e.
Proof.
  unfold_battery. decide_3600. cbn.
  destruct (Qlt_le_dec _ _); cbn; [ | eexists; reflexivity ].
  destruct (Qeq_dec dt 0); cbn; eexists; reflexivity.
Qed.

Lemma discharge_touches_energy_only (b : Battery.t) (dt power : Q) :
  exists e, snd (Battery._discharge dt power b) = Battery.set_energy b e.
Proof.
  unfold_battery. decide_3600. cbn.
  destruct (Qlt_le_dec _ _); cbn; [ | eexists; reflexivity ].
  destruct (Qeq_dec dt 0); cbn; eexists; reflexivity.
Qed.

Lemma solve_charging (b b1 : Battery.t) (dt target_power p : Q) :
  0 < target_power ->
  Battery._charge dt (Qabs target_power) b = (Ok p, b1) ->
  Battery.solve dt target_power b
  = if Qeq_dec (Battery.maximum_energy b1) 0
    then (Raise ZeroDivisionError, b1)
    else (Ok p, recompute_soc b1).
Proof.
  intros Hpos Hrun. unfold Battery.solve, bind, gt_dec.
  destruct (Qlt_le_dec 0 target_power) as [_ | Hle]; [ | lra ].
  rewrite Hrun. unfold get, lift, py_div.
  destruct (Qeq_dec _ 0); reflexivity.
Qed.

Lemma solve_discharging (b b1 : Battery.t) (dt target_power p : Q) :
  target_power <= 0 ->
  Battery._discharge dt (Qabs target_power) b = (Ok p, b1) ->
  Battery.solve dt target_power b
  = if Qeq_dec (Battery.maximum_energy b1) 0
    then (Raise ZeroDivisionError, b1)
    else (Ok (- p), recompute_soc b1).
Proof.
  intros Hneg Hrun. unfold Battery.solve, bind, gt_dec.
  destruct (Qlt_le_dec 0 target_power) as [Hlt | _]; [ lra | ].
  rewrite Hrun. unfold ret, get, lift, py_div.
  destruct (Qeq_dec _ 0); reflexivity.
Qed.

Lemma stored_nonneg (power dt efficiency : Q) :
  0 <= power -> 0 < dt -> 0 <= efficiency ->
  0 <= power * dt / 3600 * efficiency.
Proof.
  intros Hp Hdt He.
  apply Qmult_le_0_compat; [ | exact He ].
  apply Qle_shift_div_l; [ reflexivity | ].
  rewrite Qmult_0_l. apply Qmult_le_0_compat; lra.
Qed.

(** In exact arithmetic.  For [dt > 0] and every [target_power], on a
    battery with [efficiency >= 0] and [maximum_energy] not zero that
    satisfies the energy invariant, [solve] returns, and afterwards the
    invariant holds again, through the clamps as well, and [soc] is
    [energy / maximum_energy]. *)
Theorem solve_keeps_invariant (b : Battery.t) (dt target_power : Q) :
  0 < dt ->
  Battery.invariant b ->
  0 <= Battery.efficiency b ->
  ~ Battery.maximum_energy b == 0 ->
  exists power b',
    Battery.solve dt target_power b = (Ok power, b')
    /\ Battery.invariant b'
    /\ Battery.soc b' == Battery.energy b' / Battery.maximum_energy b'.
Proof.
  intros Hdt (Hmin & Hlo & Hhi) Heff Hmax.
  assert (Hdt0 : ~ dt == 0) by lra.
  pose proof (stored_nonneg (Qabs target_power) dt (Battery.efficiency b)
                (Qabs_nonneg target_power) Hdt Heff) as Hstored.
  destruct (Qlt_le_dec 0 target_power) as [Hpos | Hneg].
  - destruct (Qlt_le_dec (Battery.maximum_energy b)
                (charged b dt (Qabs target_power))) as [Hover | Hin].
    + rewrite (solve_charging _ _ _ _ _ Hpos
                 (charge_over b dt _ Hdt0 Hover)).
      cbn. destruct (Qeq_dec (Battery.maximum_energy b) 0); [ contradiction | ].
      eexists; eexists; split; [ reflexivity | ].
      unfold Battery.invariant; cbn. split_and; try lra; reflexivity.
    + rewrite (solve_charging _ _ _ _ _ Hpos (charge_within b dt _ Hin)).
      cbn. destruct (Qeq_dec (Battery.maximum_energy b) 0); [ contradiction | ].
      eexists; eexists; split; [ reflexivity | ].
      unfold Battery.invariant, charged in *; cbn. split_and; try lra; reflexivity.
  - destruct (Qlt_le_dec (discharged b dt (Qabs target_power))
                (Battery.minimum_energy b)) as [Hunder | Hin].
    + rewrite (solve_discharging _ _ _ _ _ Hneg
                 (discharge_under b dt _ Hdt0 Hunder)).
      cbn. destruct (Qeq_dec (Battery.maximum_energy b) 0); [ contradiction | ].
      eexists; eexists; split; [ reflexivity | ].
      unfold Battery.invariant; cbn. split_and; try lra; reflexivity.
    + rewrite (solve_discharging _ _ _ _ _ Hneg (discharge_within b dt _ Hin)).
      cbn. destruct (Qeq_dec (Battery.maximum_energy b) 0); [ contradiction | ].
      eexists; eexists; split; [ reflexivity | ].
      unfold Battery.invariant, discharged in *; cbn. split_and; try lra; reflexivity.
Qed.

(** C1 fails as stated.  Charging the first battery (at its floor of 100 Wh)
    with 3600 W for one second returns and leaves 99 Wh, below the floor:
    with a negative efficiency a charge lowers the energy, and [_charge]
    clamps at the top only.  On the second battery, which satisfies the
    invariant with all three energies zero, [solve] raises
    [ZeroDivisionError] at the division by [maximum_energy], and [soc] keeps
    its old value 0.5. *)
Lemma solve_breaks_invariant :
  (Battery.invariant draining_battery
   /\ fst (Battery.solve 1 3600 draining_battery) = Ok 3600
   /\ Battery.energy (snd (Battery.solve 1 3600 draining_battery)) == 99
   /\ Battery.minimum_energy (snd (Battery.solve 1 3600 draining_battery)) == 100)
  /\ (Battery.invariant empty_battery
      /\ fst (Battery.solve 1 270 empty_battery) = Raise ZeroDivisionError
      /\ Battery.soc (snd (Battery.solve 1 270 empty_battery)) == 0.5).
Proof.
  unfold Battery.invariant. split_and; vm_compute; try reflexivity;
    discriminate.
Qed.

(** C1, as the code has it.  For [dt > 0] and every [target_power], on a
    battery with [efficiency >= 0] and [maximum_energy] not zero that
    satisfies the energy invariant, [solve] returns and afterwards [soc] is
    [energy / maximum_energy]; and when the updated energy stays within the
    two bounds, so that neither clamp fires, the power returned is the
    target and the invariant holds again.  (What a clamp leaves is the
    matter of the two clamp properties.) *)
Theorem solve_keeps_invariant_unclamped
    (b : Battery.t) (dt target_power : Q) :
  0 < dt ->
  Battery.invariant b ->
  0 <= Battery.efficiency b ->
  ~ Battery.maximum_energy b == 0 ->
  exists power b',
    Battery.solve dt target_power b = (Ok power, b')
    /\ Battery.soc b' == Battery.energy b' / Battery.maximum_energy b'
    /\ ((0 < target_power ->
         charged b dt (Qabs target_power) <= Battery.maximum_energy b) ->
        (target_power <= 0 ->
         Battery.minimum_energy b <= discharged b dt (Qabs target_power)) ->
        power == target_power /\ Battery.invariant b').
Proof.
  intros Hdt (Hmin & Hlo & Hhi) Heff Hmax.
  assert (Hdt0 : ~ dt == 0) by lra.
  pose proof (stored_nonneg (Qabs target_power) dt (Battery.efficiency b)
                (Qabs_nonneg target_power) Hdt Heff) as Hstored.
  destruct (Qlt_le_dec 0 target_power) as [Hpos | Hneg].
  - destruct (Qlt_le_dec (Battery.maximum_energy b)
                (charged b dt (Qabs target_power))) as [Hover | Hin].
    + rewrite (solve_charging _ _ _ _ _ Hpos
                 (charge_over b dt _ Hdt0 Hover)).
      cbn. destruct (Qeq_dec (Battery.maximum_energy b) 0); [ contradiction | ].
      do 2 eexists. split; [ reflexivity | ].
      split; [ reflexivity | ].
      intros Hfit _. specialize (Hfit Hpos). lra.
    + rewrite (solve_charging _ _ _ _ _ Hpos (charge_within b dt _ Hin)).
      cbn. destruct (Qeq_dec (Battery.maximum_energy b) 0); [ contradiction | ].
      do 2 eexists. split; [ reflexivity | ].
      split; [ reflexivity | ].
      intros _ _. split; [ apply Qabs_pos; lra | ].
      unfold Battery.invariant, charged in *; cbn. split_and; lra.
  - destruct (Qlt_le_dec (discharged b dt (Qabs target_power))
                (Battery.minimum_energy b)) as [Hunder | Hin].
    + rewrite (solve_discharging _ _ _ _ _ Hneg
                 (discharge_under b dt _ Hdt0 Hunder)).
      cbn. destruct (Qeq_dec (Battery.maximum_energy b) 0); [ contradiction | ].
      do 2 eexists. split; [ reflexivity | ].
      split; [ reflexivity | ].
      intros _ Hfit. specialize (Hfit Hneg). lra.
    + rewrite (solve_discharging _ _ _ _ _ Hneg (discharge_within b dt _ Hin)).
      cbn. destruct (Qeq_dec (Battery.maximum_energy b) 0); [ contradiction | ].
      do 2 eexists. split; [ reflexivity | ].
      split; [ reflexivity | ].
      intros _ _. split; [ rewrite (Qabs_neg _ Hneg); ring | ].
      unfold Battery.invariant, discharged in *; cbn. split_and; lra.
Qed.

(** One second at 270 W into the example battery: 0.07125 Wh on top of
    500 Wh, far from the capacity. *)
Lemma solve_keeps_invariant_unclamped_witness :
  exists power b',
    Battery.solve 1 270 example_battery = (Ok power, b')
    /\ Battery.soc b' == Battery.energy b' / Battery.maximum_energy b'
    /\ power == 270
    /\ Battery.invariant b'.
Proof.
  destruct (solve_keeps_invariant_unclamped example_battery 1 270)
    as (power & b' & Hrun & Hsoc & Hfit).
  - reflexivity.
  - exact example_battery_invariant.
  - discriminate.
  - discriminate.
  - exists power, b'. split; [ exact Hrun | ]. split; [ exact Hsoc | ].
    apply Hfit.
    + intros _. vm_compute. discriminate.
    + intros H. exfalso. revert H. apply Qlt_not_le. reflexivity.
Defined.

(** C4, as the code has it.  On a battery whose [maximum_energy] is not
    zero: if [target_power > 0] and charging with [|target_power|] returns
    [p], then [solve] returns [p]; if [target_power <= 0] (zero included) and
    discharging with [|target_power|] returns [p], then [solve] returns
    [- p]; in both cases the state after is the state the branch left with
    [soc] set to [energy / maximum_energy]. *)
Theorem solve_dispatches_on_sign (b b1 : Battery.t) (dt target_power p : Q) :
  ~ Battery.maximum_energy b == 0 ->
  (0 < target_power ->
   Battery._charge dt (Qabs target_power) b = (Ok p, b1) ->
   Battery.solve dt target_power b
   = (Ok p, Battery.set_soc b1 (Battery.energy b1 / Battery.maximum_energy b1)))
  /\
  (target_power <= 0 ->
   Battery._discharge dt (Qabs target_power) b = (Ok p, b1) ->
   Battery.solve dt target_power b
   = (Ok (- p),
      Battery.set_soc b1 (Battery.energy b1 / Battery.maximum_energy b1))).
Proof.
  intros Hmax. split; intros Hsign Hrun.
  - rewrite (solve_charging _ _ _ _ _ Hsign Hrun).
    destruct (charge_touches_energy_only b dt (Qabs target_power)) as [e He].
    rewrite Hrun in He. cbn in He. subst b1. cbn.
    destruct (Qeq_dec (Battery.maximum_energy b) 0); [ contradiction | ].
    reflexivity.
  - rewrite (solve_discharging _ _ _ _ _ Hsign Hrun).
    destruct (discharge_touches_energy_only b dt (Qabs target_power)) as [e He].
    rewrite Hrun in He. cbn in He. subst b1. cbn.
    destruct (Qeq_dec (Battery.maximum_energy b) 0); [ contradiction | ].
    reflexivity.
Qed.

(** C4 fails as stated.  On the battery with no capacity, charging with
    270 W for one second returns (13.5 W, the clamp refusing the rest), yet
    [solve(1, 270)] does not return that result: it raises
    [ZeroDivisionError], and [soc] is not recomputed (it stays 0.5 while
    the energy is 0). *)
Lemma solve_raises_without_capacity :
  (exists p, fst (Battery._charge 1 (Qabs 270) empty_battery) = Ok p
             /\ p == 13.5)
  /\ fst (Battery.solve 1 270 empty_battery) = Raise ZeroDivisionError
  /\ Battery.soc (snd (Battery.solve 1 270 empty_battery)) == 0.5
  /\ Battery.energy (snd (Battery.solve 1 270 empty_battery)) == 0.
Proof.
  split_and; try (vm_compute; reflexivity).
  eexists. split; [ vm_compute; reflexivity | reflexivity ].
Qed.

Lemma solve_dispatches_on_sign_witness :
  (let b1 := Battery.set_energy example_battery
               (charged example_battery 1 (Qabs 270)) in
   Battery.solve 1 270 example_battery
   = (Ok (Qabs 270),
      Battery.set_soc b1 (Battery.energy b1 / Battery.maximum_energy b1)))
  /\
  (let b1 := Battery.set_energy example_battery
               (discharged example_battery 1 (Qabs 0)) in
   Battery.solve 1 0 example_battery
   = (Ok (- Qabs 0),
      Battery.set_soc b1 (Battery.energy b1 / Battery.maximum_energy b1))).
Proof.
  assert (Hmax : ~ Battery.maximum_energy example_battery == 0) by discriminate.
  split.
  - apply (proj1 (solve_dispatches_on_sign example_battery _ 1 270 _ Hmax)).
    + reflexivity.
    + apply charge_within. vm_compute. discriminate.
  - apply (proj2 (solve_dispatches_on_sign example_battery _ 1 0 _ Hmax)).
    + vm_compute. discriminate.
    + apply discharge_within. vm_compute. discriminate.
Defined.

(** ** [maximum_power] is never read *)

Ltac decide_all :=
  repeat (match goal with
          | |- context [Qlt_le_dec ?x ?y] => destruct (Qlt_le_dec x y)
          | |- context [Qeq_dec ?x ?y] => destruct (Qeq_dec x y)
          end; cbn).

Lemma solve_set_maximum_power (b : Battery.t) (v dt target_power : Q) :
  Battery.solve dt target_power (Battery.set_maximum_power b v)
  = (fst (Battery.solve dt target_power b),
     Battery.set_maximum_power (snd (Battery.solve dt target_power b)) v).
Proof.
  destruct b. unfold_battery. cbn. decide_all; reflexivity.
Qed.

(** C10.  For two batteries that agree on every field except
    [maximum_power], and every [dt] and [target_power], [solve] has the same
    outcome in both (the same returned power, or the same exception), the
    two states after agree again on every field except [maximum_power], in
    particular on [energy] and [soc], and each keeps its own
    [maximum_power]. *)
Theorem maximum_power_never_limits (b1 b2 : Battery.t) (dt target_power : Q) :
  agree_except_maximum_power b1 b2 ->
  fst (Battery.solve dt target_power b1) = fst (Battery.solve dt target_power b2)
  /\ agree_except_maximum_power (snd (Battery.solve dt target_power b1))
                                (snd (Battery.solve dt target_power b2))
  /\ Battery.maximum_power (snd (Battery.solve dt target_power b1))
     = Battery.maximum_power b1
  /\ Battery.maximum_power (snd (Battery.solve dt target_power b2))
     = Battery.maximum_power b2.
Proof.
  intros (He & Hen & Hs & Hms & Hmax & Hmin).
  assert (Hb2 : b2 = Battery.set_maximum_power b1 (Battery.maximum_power b2)).
  { destruct b1, b2; cbn in *; subst; reflexivity. }
  rewrite Hb2 at 1 2 3. rewrite !solve_set_maximum_power. cbn [fst snd].
  split; [ reflexivity | ].
  split; [ unfold agree_except_maximum_power; cbn; tauto | ].
  split.
  - destruct b1. unfold_battery. cbn. decide_all; reflexivity.
  - cbn. reflexivity.
Qed.

Lemma maximum_power_never_limits_witness :
  fst (Battery.solve 3600 1000 example_battery)
  = fst (Battery.solve 3600 1000 (Battery.init 0.5 0.1 0.95 1000 1))
  /\ Battery.energy (snd (Battery.solve 3600 1000 example_battery))
     = Battery.energy
         (snd (Battery.solve 3600 1000 (Battery.init 0.5 0.1 0.95 1000 1))).
Proof.
  destruct (maximum_power_never_limits example_battery
              (Battery.init 0.5 0.1 0.95 1000 1) 3600 1000)
    as (Hr & (_ & Hen & _) & _).
  - unfold agree_except_maximum_power. cbn. tauto.
  - split; [ exact Hr | exact Hen ].
Defined.

(** ** Charging, then discharging what was accepted *)

Lemma round_trip_loss_bound (e0 mx E eff : Q) :
  e0 <= mx -> 0 <= E -> 0 <= eff -> eff <= 1 ->
  (1 - eff) * Qmax 0 (e0 + E * eff - mx) <= (1 - eff * eff) * E.
Proof.
  intros He0 HE Heff0 Heff1.
  assert (Hsq : 0 <= (1 - eff) * ((1 + eff) * E))
    by (apply Qmult_le_0_compat; [ lra | apply Qmult_le_0_compat; lra ]).
  destruct (Q.max_spec 0 (e0 + E * eff - mx)) as [[Hlt Hmax] | [Hle Hmax]];
    rewrite Hmax.
  - nra.
  - lra.
Qed.

(** In exact arithmetic.  For [dt > 0] and [power >= 0], on a battery
    with [efficiency <= 1] that satisfies the energy invariant: [_charge]
    returns an achievable power [p'], [_discharge] of [p'] returns, and the
    energy stored at the end is never above the energy at the start and is
    below it by at most the round-trip loss, [(1 - efficiency)] times the
    energy that the charge rejected (nothing when the charge did not
    overshoot).  With [efficiency >= 0] that loss is at most
    [(1 - efficiency^2)] times the energy [power*dt/3600] offered. *)
Theorem charge_then_discharge (b : Battery.t) (dt power : Q) :
  0 < dt ->
  0 <= power ->
  Battery.invariant b ->
  Battery.efficiency b <= 1 ->
  exists p' b1 p'' b2,
    Battery._charge dt power b = (Ok p', b1)
    /\ Battery._discharge dt p' b1 = (Ok p'', b2)
    /\ Battery.energy b2 <= Battery.energy b
    /\ Battery.energy b - round_trip_loss b dt power <= Battery.energy b2
    /\ (0 <= Battery.efficiency b ->
        round_trip_loss b dt power
        <= (1 - Battery.efficiency b * Battery.efficiency b)
           * (power * dt / 3600)).
Proof.
  intros Hdt Hpower (Hmin & Hlo & Hhi) Heff.
  assert (Hdt0 : ~ dt == 0) by lra.
  assert (Hbound : 0 <= Battery.efficiency b ->
            round_trip_loss b dt power
            <= (1 - Battery.efficiency b * Battery.efficiency b)
               * (power * dt / 3600)).
  { intros Heff0. unfold round_trip_loss, rejected_energy, charged.
    apply round_trip_loss_bound; try assumption.
    apply Qle_shift_div_l; [ reflexivity | ].
    rewrite Qmult_0_l. apply Qmult_le_0_compat; lra. }
  unfold round_trip_loss, rejected_energy in *.
  destruct (Qlt_le_dec (Battery.maximum_energy b) (charged b dt power))
    as [Hover | Hin].
  - (* the charge overshoots and is clamped *)
    rewrite (charge_over b dt power Hdt0 Hover).
    set (ex := charged b dt power - Battery.maximum_energy b) in *.
    set (b1 := Battery.set_energy b (charged b dt power - ex)).
    set (p' := power - ex * 3600 / dt).
    assert (Hd : discharged b1 dt p'
                 == Battery.energy b - (1 - Battery.efficiency b) * ex).
    { unfold discharged, b1, p', ex, charged. cbn. field. exact Hdt0. }
    assert (Hpos : 0 < ex) by (unfold ex; lra).
    assert (Hex : Qmax 0 ex == ex) by (apply Q.max_r; lra).
    assert (Hloss : 0 <= (1 - Battery.efficiency b) * ex)
      by (apply Qmult_le_0_compat; lra).
    assert (Hmaxloss : (1 - Battery.efficiency b) * Qmax 0 ex
                       == (1 - Battery.efficiency b) * ex)
      by (rewrite Hex; reflexivity).
    destruct (Qlt_le_dec (discharged b1 dt p') (Battery.minimum_energy b1))
      as [Hunder | Hok].
    + exists p', b1. do 2 eexists.
      split; [ reflexivity | ].
      split; [ exact (discharge_under b1 dt p' Hdt0 Hunder) | ].
      change (Battery.minimum_energy b1) with (Battery.minimum_energy b) in *.
      cbn [Battery.energy Battery.set_energy].
      split_and; try lra; exact Hbound.
    + exists p', b1. do 2 eexists.
      split; [ reflexivity | ].
      split; [ exact (discharge_within b1 dt p' Hok) | ].
      change (Battery.minimum_energy b1) with (Battery.minimum_energy b) in *.
      cbn [Battery.energy Battery.set_energy].
      split_and; try lra; exact Hbound.
  - (* the charge fits *)
    rewrite (charge_within b dt power Hin).
    set (b1 := Battery.set_energy b (charged b dt power)).
    assert (Hd : discharged b1 dt power == Battery.energy b)
      by (unfold discharged, b1, charged; cbn; ring).
    assert (Hex : Qmax 0 (charged b dt power - Battery.maximum_energy b) == 0)
      by (apply Q.max_l; lra).
    assert (Hmaxloss :
              (1 - Battery.efficiency b)
              * Qmax 0 (charged b dt power - Battery.maximum_energy b) == 0)
      by (rewrite Hex; ring).
    assert (Hok : Battery.minimum_energy b1 <= discharged b1 dt power)
      by (change (Battery.minimum_energy b1) with (Battery.minimum_energy b);
          lra).
    exists power, b1. do 2 eexists.
    split; [ reflexivity | ].
    split; [ exact (discharge_within b1 dt power Hok) | ].
    cbn [Battery.energy Battery.set_energy].
    split_and; try lra; exact Hbound.
Qed.

(** C7 fails as stated.  An efficiency above one creates energy, on either
    reading (every value below is a binary64 number and every operation
    exact).  From 500 Wh, charging 300 W for an hour overshoots
    (1100 Wh), is clamped to 1000 Wh and returns 200 W; discharging 200 W for
    an hour takes 400 Wh and ends at 600 Wh, above the 500 Wh at the start. *)
Lemma charge_then_discharge_gains :
  Battery.invariant amplifying_battery
  /\ Battery.energy amplifying_battery == 500
  /\ exists p' b1 p'' b2,
       Battery._charge 3600 300 amplifying_battery = (Ok p', b1)
       /\ p' == 200
       /\ Battery._discharge 3600 p' b1 = (Ok p'', b2)
       /\ Battery.energy b2 == 600
       /\ Battery.energy amplifying_battery < Battery.energy b2.
Proof.
  split; [ unfold Battery.invariant; cbn; split_and; lra | ].
  split; [ reflexivity | ].
  do 4 eexists.
  split; [ lazy; reflexivity | ].
  split; [ reflexivity | ].
  split; [ lazy; reflexivity | ].
  split; reflexivity.
Qed.

(** C7, as the code has it.  For [dt > 0] and [power >= 0], on a battery
    that satisfies the energy invariant: [_charge] returns a power [p'] that
    is at most [power], and [_discharge] of [p'] returns a power that is at
    most [p'].  When neither clamp fires (the energy after the charge is at
    most [maximum_energy] and the energy after the discharge at least
    [minimum_energy]), both return [power] itself and the discharge takes
    out the very amount the charge put in, [power*dt/3600*efficiency]: the
    energy is [energy + a] after the charge and [(energy + a) - a] at the
    end.  That is the energy at the start when nothing is rounded, and the
    start up to the rounding of one addition and one subtraction on
    binary64.  Nothing is said of a charge that is clamped. *)
Theorem charge_then_discharge_symmetric (b : Battery.t) (dt power : Q) :
  0 < dt ->
  0 <= power ->
  Battery.invariant b ->
  exists p' b1 p'' b2,
    Battery._charge dt power b = (Ok p', b1)
    /\ Battery._discharge dt p' b1 = (Ok p'', b2)
    /\ p' <= power
    /\ p'' <= p'
    /\ (charged b dt power <= Battery.maximum_energy b ->
        Battery.minimum_energy b
        <= discharged (Battery.set_energy b (charged b dt power)) dt power ->
        p' = power
        /\ p'' = power
        /\ Battery.energy b1
           = Battery.energy b + power * dt / 3600 * Battery.efficiency b
        /\ Battery.energy b2
           = Battery.energy b1 - power * dt / 3600 * Battery.efficiency b).
Proof.
  intros Hdt Hpower Hinv.
  assert (Hdt0 : ~ dt == 0) by lra.
  assert (Hdis : forall (c : Battery.t) (q : Q),
            exists q' c',
              Battery._discharge dt q c = (Ok q', c') /\ q' <= q).
  { intros c q.
    destruct (Qlt_le_dec (discharged c dt q) (Battery.minimum_energy c))
      as [Hunder | Hin].
    - rewrite (discharge_under c dt q Hdt0 Hunder).
      do 2 eexists. split; [ reflexivity | ].
      assert (0 < (Battery.minimum_energy c - discharged c dt q) * 3600 / dt)
        by (apply power_of_energy_positive; [ exact Hdt | lra ]).
      lra.
    - rewrite (discharge_within c dt q Hin).
      do 2 eexists. split; [ reflexivity | apply Qle_refl ]. }
  destruct (Qlt_le_dec (Battery.maximum_energy b) (charged b dt power))
    as [Hover | Hin].
  - rewrite (charge_over b dt power Hdt0 Hover).
    set (q := power
              - (charged b dt power - Battery.maximum_energy b) * 3600 / dt).
    set (c := Battery.set_energy b
                (charged b dt power
                 - (charged b dt power - Battery.maximum_energy b))).
    destruct (Hdis c q) as (q' & c' & Hrun & Hle). exists q, c, q', c'.
    split; [ reflexivity | ]. split; [ exact Hrun | ].
    assert (0 < (charged b dt power - Battery.maximum_energy b) * 3600 / dt)
      by (apply power_of_energy_positive; [ exact Hdt | lra ]).
    split; [ unfold q; lra | ]. split; [ exact Hle | ].
    intros Hfit _. lra.
  - rewrite (charge_within b dt power Hin).
    set (b1 := Battery.set_energy b (charged b dt power)).
    destruct (Hdis b1 power) as (q' & c' & Hrun & Hle).
    exists power, b1, q', c'.
    split; [ reflexivity | ]. split; [ exact Hrun | ].
    split; [ apply Qle_refl | ]. split; [ exact Hle | ].
    intros _ Hfloor.
    change (Battery.minimum_energy b) with (Battery.minimum_energy b1)
      in Hfloor.
    rewrite (discharge_within b1 dt power Hfloor) in Hrun.
    injection Hrun as <- <-.
    split_and; reflexivity.
Qed.

Lemma charge_then_discharge_symmetric_witness :
  exists p' b1 p'' b2,
    Battery._charge 1 270 example_battery = (Ok p', b1)
    /\ Battery._discharge 1 p' b1 = (Ok p'', b2)
    /\ p' = 270 /\ p'' = 270
    /\ Battery.energy b2
       = Battery.energy b1 - 270 * 1 / 3600 * Battery.efficiency example_battery.
Proof.
  destruct (charge_then_discharge_symmetric example_battery 1 270)
    as (p' & b1 & p'' & b2 & Hc & Hd & _ & _ & Hsym).
  - reflexivity.
  - discriminate.
  - exact example_battery_invariant.
  - exists p', b1, p'', b2. split; [ exact Hc | ]. split; [ exact Hd | ].
    destruct Hsym as (H1 & H2 & _ & H4).
    + vm_compute. discriminate.
    + vm_compute. discriminate.
    + split; [ exact H1 | ]. split; [ exact H2 | exact H4 ].
Defined.

(** ** The panel *)

(** C5 fails as stated.  With an irradiation of -1 the example panel returns
    -0.4, below zero, where [clip(-0.4, 0, 1000)] is 0: [solve_output] has an
    upper clamp only. *)
Lemma panel_output_negative :
  Panel.solve_output example_panel (-1) == -0.4
  /\ Panel.solve_output example_panel (-1) < 0
  /\ np_clip ((-1) * Panel.area example_panel * Panel.efficiency example_panel)
             0 (Panel.maximum_output_power example_panel) == 0.
Proof. split_and; vm_compute; reflexivity. Qed.

(** C5, as the code has it.  For every irradiation, [solve_output] returns
    the smaller of [irradiation * area * efficiency] and
    [maximum_output_power]: it is never above [maximum_output_power], and
    there is no clamp from below.  Where [irradiation * area * efficiency] is
    not negative the result is [clip(irradiation * area * efficiency, 0,
    maximum_output_power)]. *)
Theorem panel_output_capped (p : Panel.t) (irradiation : Q) :
  let raw := irradiation * Panel.area p * Panel.efficiency p in
  Panel.solve_output p irradiation == Qmin raw (Panel.maximum_output_power p)
  /\ Panel.solve_output p irradiation <= Panel.maximum_output_power p
  /\ (0 <= raw ->
      Panel.solve_output p irradiation
      == np_clip raw 0 (Panel.maximum_output_power p)).
Proof.
  intros raw. unfold Panel.solve_output, gt_dec, np_clip. fold raw.
  destruct (Qlt_le_dec (Panel.maximum_output_power p) raw) as [Hlt | Hle].
  - split_and.
    + symmetry. apply Q.min_r. lra.
    + lra.
    + intros Hraw. rewrite (Q.max_l raw 0 Hraw). symmetry. apply Q.min_r. lra.
  - split_and.
    + symmetry. apply Q.min_l. exact Hle.
    + exact Hle.
    + intros Hraw. rewrite (Q.max_l raw 0 Hraw). symmetry. apply Q.min_l.
      exact Hle.
Qed.

(** An irradiation of 800 on the example panel: 320 W, not clamped. *)
Lemma panel_output_capped_witness :
  Panel.solve_output example_panel 800
  == np_clip (800 * Panel.area example_panel * Panel.efficiency example_panel)
             0 (Panel.maximum_output_power example_panel).
Proof.
  apply (panel_output_capped example_panel 800). vm_compute. discriminate.
Defined.

(** ** [Boat.run] *)

Lemma solve_returns (b : Battery.t) (dt target_power : Q) :
  ~ dt == 0 ->
  ~ Battery.maximum_energy b == 0 ->
  exists power b', Battery.solve dt target_power b = (Ok power, b').
Proof.
  intros Hdt Hmax.
  destruct (Qlt_le_dec 0 target_power) as [Hpos | Hneg].
  - destruct (charge_returns b dt (Qabs target_power) Hdt) as (p & e & Hrun).
    rewrite (solve_charging _ _ _ _ _ Hpos Hrun). cbn.
    destruct (Qeq_dec (Battery.maximum_energy b) 0); [ contradiction | eauto ].
  - destruct (discharge_returns b dt (Qabs target_power) Hdt) as (p & e & Hrun).
    rewrite (solve_discharging _ _ _ _ _ Hneg Hrun). cbn.
    destruct (Qeq_dec (Battery.maximum_energy b) 0); [ contradiction | eauto ].
Qed.

(** [run] is the battery's [solve] on the target of step 1; what it raises,
    [run] raises, and what it returns goes through steps 2 to 5. *)
Lemma run_unfold (boat : Boat.t) (dt irradiation motor_throttle : Q) :
  Boat.run dt irradiation motor_throttle boat
  = match Battery.solve dt (target_battery_power boat irradiation motor_throttle)
            (Boat.battery boat) with
    | (Raise e, b') => (Raise e, Boat.set_battery boat b')
    | (Ok p, b') =>
        let esc_in := actual_esc_input_power boat irradiation motor_throttle p in
        let esc_out := ESC.solve_output (Boat.esc boat) esc_in in
        let propulsive :=
          Propulsion.solve_output (Boat.propulsion boat)
            (Motor.solve_output (Boat.motor boat) esc_out) in
        (Ok {| pv_output_power :=
                 actual_pv_output_power boat irradiation motor_throttle p;
               battery_stored_energy := Battery.energy b';
               battery_soc := Battery.soc b';
               battery_output_power := p;
               esc_input_power := esc_in;
               esc_output_power := esc_out;
               motor_output_power := esc_out;
               propulsive_output_power := propulsive;
               hull_speed := Hull.solve_output (Boat.hull boat) propulsive;
               pv_target_power :=
                 Panel.solve_output (Boat.panel boat) irradiation;
               esc_target_power :=
                 target_battery_power boat irradiation motor_throttle;
               battery_target_power :=
                 Boat.target_esc_input_power boat motor_throttle;
               motor_target_throttle := motor_throttle |},
         Boat.set_battery boat b')
    end.
Proof.
  unfold Boat.run, bind, get, ret, Boat.on_battery, target_battery_power.
  destruct (Battery.solve _ _ (Boat.battery boat)) as [[p | e] b'];
    reflexivity.
Qed.

Lemma run_returns (boat : Boat.t) (dt irradiation motor_throttle : Q) :
  ~ dt == 0 ->
  ~ Battery.maximum_energy (Boat.battery boat) == 0 ->
  exists out boat',
    Boat.run dt irradiation motor_throttle boat = (Ok out, boat').
Proof.
  intros Hdt Hmax. rewrite run_unfold.
  destruct (solve_returns (Boat.battery boat) dt
              (target_battery_power boat irradiation motor_throttle) Hdt Hmax)
    as (p & b' & Hrun).
  rewrite Hrun. eauto.
Qed.

(** C6.  Whenever [Boat.run] returns its record, the actual ESC input power
    is at most the target ESC input power (the three input clamps applied to
    the throttle) and the actual PV output power is at most the target PV
    output power (the panel's output for the irradiation).  It does return
    whenever [dt] and the battery's [maximum_energy] are not zero. *)
Theorem actual_below_target (boat : Boat.t) (dt irradiation motor_throttle : Q) :
  (~ dt == 0 ->
   ~ Battery.maximum_energy (Boat.battery boat) == 0 ->
   exists out boat',
     Boat.run dt irradiation motor_throttle boat = (Ok out, boat'))
  /\
  (forall out boat',
     Boat.run dt irradiation motor_throttle boat = (Ok out, boat') ->
     esc_input_power out <= Boat.target_esc_input_power boat motor_throttle
     /\ pv_output_power out <= Panel.solve_output (Boat.panel boat) irradiation
     /\ pv_target_power out = Panel.solve_output (Boat.panel boat) irradiation).
Proof.
  split; [ apply run_returns | ].
  intros out boat'. rewrite run_unfold.
  destruct (Battery.solve _ _ _) as [[p | e] b']; [ | discriminate ].
  intros Hout. injection Hout as Hout _. subst out. cbn.
  unfold actual_esc_input_power, actual_pv_output_power, gt_dec.
  split_and.
  - destruct (Qlt_le_dec (Boat.target_esc_input_power boat motor_throttle) _);
      [ apply Qle_refl | assumption ].
  - destruct (Qlt_le_dec (Panel.solve_output (Boat.panel boat) irradiation) _);
      [ apply Qle_refl | assumption ].
  - reflexivity.
Qed.

(** C9.  Whenever [Boat.run] returns its record, [motor_output_power] holds
    the same value as [esc_output_power], the output of the ESC stage
    ([esc_input_power * esc.efficiency]); the motor's efficiency enters the
    record only through [propulsive_output_power], the propulsion's output
    for the motor's output for that value, and through the hull speed.  It
    does return whenever [dt] and the battery's [maximum_energy] are not
    zero. *)
Theorem motor_output_is_esc_output
    (boat : Boat.t) (dt irradiation motor_throttle : Q) :
  (~ dt == 0 ->
   ~ Battery.maximum_energy (Boat.battery boat) == 0 ->
   exists out boat',
     Boat.run dt irradiation motor_throttle boat = (Ok out, boat'))
  /\
  (forall out boat',
     Boat.run dt irradiation motor_throttle boat = (Ok out, boat') ->
     motor_output_power out = esc_output_power out
     /\ esc_output_power out
        = ESC.solve_output (Boat.esc boat) (esc_input_power out)
     /\ propulsive_output_power out
        = Propulsion.solve_output (Boat.propulsion boat)
            (Motor.solve_output (Boat.motor boat) (esc_output_power out))
     /\ hull_speed out
        = Hull.solve_output (Boat.hull boat) (propulsive_output_power out)).
Proof.
  split; [ apply run_returns | ].
  intros out boat'. rewrite run_unfold.
  destruct (Battery.solve _ _ _) as [[p | e] b']; [ | discriminate ].
  intros Hout. injection Hout as Hout _. subst out. cbn.
  split_and; reflexivity.
Qed.

(** One second at an irradiation of 800 with the throttle closed. *)
Lemma actual_below_target_witness :
  exists out boat',
    Boat.run 1 800 0 example_boat = (Ok out, boat')
    /\ esc_input_power out <= Boat.target_esc_input_power example_boat 0
    /\ pv_output_power out <= Panel.solve_output (Boat.panel example_boat) 800.
Proof.
  destruct (proj1 (actual_below_target example_boat 1 800 0))
    as (out & boat' & Hrun); [ discriminate | discriminate | ].
  exists out, boat'. split; [ exact Hrun | ].
  destruct (proj2 (actual_below_target example_boat 1 800 0) out boat' Hrun)
    as (Hesc & Hpv & _).
  split; [ exact Hesc | exact Hpv ].
Defined.

(** One second in the dark at full throttle: the ESC puts out 900 W, the
    record's [motor_output_power] says 900 W too, and the motor's own output
    for that input is 810 W. *)
Lemma motor_output_is_esc_output_witness :
  exists out boat',
    Boat.run 1 0 1 example_boat = (Ok out, boat')
    /\ motor_output_power out = esc_output_power out.
Proof.
  destruct (proj1 (motor_output_is_esc_output example_boat 1 0 1))
    as (out & boat' & Hrun); [ discriminate | discriminate | ].
  exists out, boat'. split; [ exact Hrun | ].
  exact (proj1 (proj2 (motor_output_is_esc_output example_boat 1 0 1)
                  out boat' Hrun)).
Defined.

(** Two labels of the record are exchanged: [esc_target_power] holds the
    battery's target and [battery_target_power] the target ESC input. *)
Example target_fields (boat boat' : Boat.t) (dt irradiation motor_throttle : Q)
    (out : BoatOutputData) :
  Boat.run dt irradiation motor_throttle boat = (Ok out, boat') ->
  esc_target_power out = target_battery_power boat irradiation motor_throttle
  /\ battery_target_power out
     = Boat.target_esc_input_power boat motor_throttle.
Proof.
  rewrite run_unfold.
  destruct (Battery.solve _ _ _) as [[p | e] b']; [ | discriminate ].
  intros Hout. injection Hout as Hout _. subst out. split; reflexivity.
Qed.

Example full_throttle_in_the_dark :
  exists out boat',
    Boat.run 1 0 1 example_boat = (Ok out, boat')
    /\ esc_output_power out == 900
    /\ motor_output_power out == 900
    /\ Motor.solve_output (Boat.motor example_boat) (esc_output_power out) == 810
    /\ propulsive_output_power out == 405.
Proof.
  do 2 eexists. split; [ lazy; reflexivity | ].
  split_and; reflexivity.
Qed.

(** The spec's end-to-end example: the PV target is 320 W, the battery is
    asked to take 270 W and does, and ends at 500.07125 Wh. *)
Example end_to_end :
  exists out boat',
    Boat.run 1 800 0 example_boat = (Ok out, boat')
    /\ pv_target_power out == 320
    /\ battery_output_power out == 270
    /\ battery_stored_energy out == 500.07125
    /\ esc_input_power out == 0.
Proof.
  do 2 eexists. split; [ lazy; reflexivity | ].
  split_and; reflexivity.
Qed.

(** ** [Competition.run] *)

Lemma index_last_cons {A} (x : A) (l : list A) :
  exists y, index_last (x :: l) = Ok y.
Proof.
  revert x. induction l as [| z l IH]; intros x.
  - exists x. reflexivity.
  - destruct (IH z) as [y Hy]. exists y. exact Hy.
Qed.

Section CompetitionProperties.

Context {Row Event EventOutputData EnergyController : Type}.
Variable time : Row -> Z.
Variable start end_ : Event -> Z.
Variable Event_run :
  Event -> list Row -> Boat.t * EnergyController ->
  (EventOutputData + string) * (Boat.t * EnergyController).

(** The four outcomes of [_check_input]. *)
Lemma check_input_outcome (input_data : list Row)
    (competition_start competition_end : Z) :
  match Competition._check_input time input_data
          competition_start competition_end with
  | Ok _ =>
      exists first_row last_row,
        index_first input_data = Ok first_row
        /\ index_last input_data = Ok last_row
        /\ (time first_row <= competition_start)%Z
        /\ (competition_end <= time last_row)%Z
  | Raise (ValueError message) =>
      (exists first_row last_row,
         index_first input_data = Ok first_row
         /\ index_last input_data = Ok last_row
         /\ ((time first_row > competition_start)%Z
             \/ (time last_row < competition_end)%Z))
      /\ (message = start_message \/ message = end_message)
  | Raise IndexError => input_data = []
  | Raise _ => False
  end.
Proof.
  unfold Competition._check_input.
  destruct input_data as [| first_row rest]; [ reflexivity | ].
  destruct (index_last_cons first_row rest) as [last_row Hlast].
  cbn [index_first]. rewrite Hlast.
  destruct (Z.gtb_spec (time first_row) competition_start) as [Hgt | Hle].
  - split; [ | left; reflexivity ].
    exists first_row, last_row. split_and; try reflexivity. left. lia.
  - destruct (Z.ltb_spec (time last_row) competition_end) as [Hlt | Hge].
    + split; [ | right; reflexivity ].
      exists first_row, last_row. split_and; try reflexivity. right. exact Hlt.
    + exists first_row, last_row. split_and; try reflexivity; lia.
Qed.

(** The loop over the events raises nothing but what an event raised. *)
Lemma run_events_outcome (events : list Event) (input_data : list Row) :
  forall (results : list EventOutputData) (s : Competition.state),
    match fst (Competition.run_events time start end_ Event_run
                 events input_data results s) with
    | Ok _ | Raise (External _) => True
    | Raise _ => False
    end.
Proof.
  induction events as [| event rest IH]; intros results s.
  - exact I.
  - cbn [Competition.run_events]. unfold bind, Competition.call_event_run.
    destruct (Event_run _ _ _) as [[out | description] [b c]].
    + apply IH.
    + exact I.
Qed.

(** C8.  [Competition.run] raises [ValueError] exactly when the input
    series does not cover the competition window: its first timestamp is
    after the first event's start, or its last timestamp is before the last
    event's end.  The message is one of the two of [_check_input], and the
    state is then the state before the call: the boat and the controller
    are untouched and [event.run] has not been called. *)
Theorem validation_before_simulation
    (self : Competition.t) (input_data : list Row) (s : Competition.state) :
  ((exists message,
      fst (Competition.run time start end_ Event_run self input_data s)
      = Raise (ValueError message))
   <-> Competition.uncovered time start end_ self input_data)
  /\
  (forall message,
     fst (Competition.run time start end_ Event_run self input_data s)
     = Raise (ValueError message) ->
     snd (Competition.run time start end_ Event_run self input_data s) = s
     /\ (message = start_message \/ message = end_message)).
Proof.
  unfold Competition.run, Competition.uncovered, bind, lift, ret.
  destruct (Competition.events self) as [| first_event others].
  - cbn. split; [ split | ].
    + intros [message H]. discriminate H.
    + intros (? & ? & ? & ? & H & _). discriminate H.
    + intros message H. discriminate H.
  - destruct (index_last_cons first_event others) as [last_event Hlast].
    rewrite Hlast. cbn [index_first].
    pose proof (check_input_outcome input_data (start first_event)
                  (end_ last_event)) as Hcheck.
    destruct (Competition._check_input _ _ _ _) as [[] | e].
    + (* the check passed: the events run *)
      destruct Hcheck as (first_row & last_row & Hf & Hl & Hle & Hge).
      pose proof (run_events_outcome (first_event :: others)
                    (Competition.select time (start first_event)
                       (end_ last_event) input_data) [] s) as Hloop.
      destruct (Competition.run_events _ _ _ _ _ _ _ _) as [[results | e] s'].
      * cbn. split; [ split | ].
        -- intros [message H]. discriminate H.
        -- intros (fe & le & fr & lr & H1 & H2 & H3 & H4 & Hor).
           rewrite Hf in H3. rewrite Hl in H4.
           injection H1 as <-. injection H2 as <-.
           injection H3 as <-. injection H4 as <-. lia.
        -- intros message H. discriminate H.
      * cbn in *. destruct e; try contradiction.
        split; [ split | ].
        -- intros [message H]. discriminate H.
        -- intros (fe & le & fr & lr & H1 & H2 & H3 & H4 & Hor).
           rewrite Hf in H3. rewrite Hl in H4.
           injection H1 as <-. injection H2 as <-.
           injection H3 as <-. injection H4 as <-. lia.
        -- intros message H. discriminate H.
    + (* the check raised: nothing else happens *)
      cbn. destruct e as [ | | message | description ];
        try contradiction.
      * subst input_data. split; [ split | ].
        -- intros [message H]. discriminate H.
        -- intros (? & ? & ? & ? & _ & _ & H & _). discriminate H.
        -- intros message H. discriminate H.
      * destruct Hcheck as [(first_row & last_row & Hf & Hl & Hor) Hmsg].
        split; [ split | ].
        -- intros _. exists first_event, last_event, first_row, last_row.
           split_and; try reflexivity; assumption.
        -- intros _. exists message. reflexivity.
        -- intros message' H. injection H as <-.
           split; [ reflexivity | exact Hmsg ].
Qed.

End CompetitionProperties.

(** The spec's validation example: an input series over [0, 10] and an event
    window [-1, 10]. *)
Lemma validation_before_simulation_witness :
  exists message,
    fst (run_windows (Competition.mk "early" [(-1, 10)%Z]) example_input
           example_state)
    = Raise (ValueError message)
    /\ snd (run_windows (Competition.mk "early" [(-1, 10)%Z]) example_input
              example_state)
       = example_state.
Proof.
  destruct (validation_before_simulation (fun t : Z => t) fst snd window_run
              (Competition.mk "early" [(-1, 10)%Z]) example_input
              example_state) as [[_ Hraise] Hstate].
  destruct Hraise as [message Hmessage].
  - exists (-1, 10)%Z, (-1, 10)%Z, 0%Z, 10%Z.
    split_and; try reflexivity. left. reflexivity.
  - exists message. split; [ exact Hmessage | ].
    exact (proj1 (Hstate message Hmessage)).
Defined.

Example early_window_is_refused :
  fst (run_windows (Competition.mk "early" [(-1, 10)%Z]) example_input
         example_state)
  = Raise (ValueError start_message).
Proof. reflexivity. Qed.

Example late_window_is_refused :
  fst (run_windows (Competition.mk "late" [(0, 4)%Z; (5, 11)%Z]) example_input
         example_state)
  = Raise (ValueError end_message).
Proof. reflexivity. Qed.

(** A covered window: both events run, on rows 0 to 4 and 5 to 10, and the
    battery has been drawn on. *)
Example covered_windows_run :
  let outcome := run_windows (Competition.mk "covered" [(0, 4)%Z; (5, 10)%Z])
                   example_input example_state in
  fst outcome = Ok (Competition.mkCompetitionResult "covered" [5%nat; 6%nat])
  /\ Competition.event_runs (snd outcome) = 2%nat
  /\ Battery.energy (Boat.battery (Competition.boat (snd outcome)))
     < Battery.energy (Boat.battery example_boat).
Proof. cbv zeta. split_and; vm_compute; reflexivity. Qed.


(** * Further properties of the code *)

(** ** The input clamps of the drivetrain *)

(** The shape of the three [solve_input] clamps. *)
Lemma cap_le_limit (x m : Q) :
  (if gt_dec x m then m else x) <= m.
Proof. unfold gt_dec. destruct (Qlt_le_dec m x); lra. Qed.

Lemma cap_le_input (x m : Q) :
  (if gt_dec x m then m else x) <= x.
Proof. unfold gt_dec. destruct (Qlt_le_dec m x); lra. Qed.

Lemma cap_nonneg (x m : Q) :
  0 <= x -> 0 <= m -> 0 <= (if gt_dec x m then m else x).
Proof. unfold gt_dec. destruct (Qlt_le_dec m x); lra. Qed.

Lemma cap_monotone (x y m : Q) :
  x <= y ->
  (if gt_dec x m then m else x) <= (if gt_dec y m then m else y).
Proof.
  unfold gt_dec. destruct (Qlt_le_dec m x), (Qlt_le_dec m y); lra.
Qed.

Lemma np_clip_unit (throttle : Q) :
  0 <= np_clip throttle 0 1 /\ np_clip throttle 0 1 <= 1.
Proof.
  unfold np_clip. split.
  - apply Q.min_glb; [ apply Q.le_max_r | discriminate ].
  - apply Q.le_min_r.
Qed.

Lemma np_clip_monotone (x y lo hi : Q) :
  x <= y -> np_clip x lo hi <= np_clip y lo hi.
Proof.
  intros Hxy. unfold np_clip.
  apply Q.min_le_compat_r. apply Q.max_le_compat_r. exact Hxy.
Qed.

Lemma esc_input_nonneg (e : ESC.t) (throttle : Q) :
  0 <= ESC.maximum_input_power e -> 0 <= ESC.solve_input e throttle.
Proof.
  intros Hmax. unfold ESC.solve_input. apply cap_nonneg; [ | exact Hmax ].
  apply Qmult_le_0_compat; [ apply np_clip_unit | exact Hmax ].
Qed.

(** X1.  With a limit that is not negative, [ESC.solve_input] returns
    [clip(throttle, 0, 1) * maximum_input_power]: a value between 0 and the
    limit, the limit itself from a throttle of 1 upwards and 0 for a throttle
    of 0 or less.  The [if] after the product never changes it. *)
Theorem esc_input_in_range (e : ESC.t) (throttle : Q) :
  0 <= ESC.maximum_input_power e ->
  ESC.solve_input e throttle
  == np_clip throttle 0 1 * ESC.maximum_input_power e
  /\ 0 <= ESC.solve_input e throttle
  /\ ESC.solve_input e throttle <= ESC.maximum_input_power e
  /\ (1 <= throttle -> ESC.solve_input e throttle == ESC.maximum_input_power e)
  /\ (throttle <= 0 -> ESC.solve_input e throttle == 0).
Proof.
  intros Hmax. unfold ESC.solve_input.
  destruct (np_clip_unit throttle) as [H0 H1].
  assert (Hone : 1 <= throttle -> np_clip throttle 0 1 == 1).
  { intros Ht. unfold np_clip. rewrite (Q.max_l throttle 0) by lra.
    apply Q.min_r. exact Ht. }
  assert (Hzero : throttle <= 0 -> np_clip throttle 0 1 == 0).
  { intros Ht. unfold np_clip. rewrite (Q.max_r throttle 0) by lra.
    apply Q.min_l. discriminate. }
  set (c := np_clip throttle 0 1) in *.
  assert (Hprod : c * ESC.maximum_input_power e <= ESC.maximum_input_power e)
    by nra.
  assert (Hpos : 0 <= c * ESC.maximum_input_power e)
    by (apply Qmult_le_0_compat; assumption).
  unfold gt_dec.
  destruct (Qlt_le_dec (ESC.maximum_input_power e)
              (c * ESC.maximum_input_power e)) as [Hlt | _]; [ lra | ].
  split_and; try lra.
  - intros Ht. rewrite (Hone Ht). ring.
  - intros Ht. rewrite (Hzero Ht). ring.
Qed.

Lemma esc_input_in_range_witness :
  ESC.solve_input (ESC.mk 0.9 1000) 2 == 1000
  /\ ESC.solve_input (ESC.mk 0.9 1000) (-1) == 0.
Proof.
  destruct (esc_input_in_range (ESC.mk 0.9 1000) 2) as (_ & _ & _ & Hfull & _).
  - discriminate.
  - destruct (esc_input_in_range (ESC.mk 0.9 1000) (-1))
      as (_ & _ & _ & _ & Hclosed); [ discriminate | ].
    split; [ apply Hfull; discriminate | apply Hclosed; discriminate ].
Defined.

(** X2.  The target of the propulsion chain, the three [solve_input] clamps
    applied to the throttle, is at most each of the three limits, whatever
    the throttle; it is not negative when none of the limits is. *)
Theorem target_within_every_limit (boat : Boat.t) (motor_throttle : Q) :
  Boat.target_esc_input_power boat motor_throttle
    <= Propulsion.maximum_input_power (Boat.propulsion boat)
  /\ Boat.target_esc_input_power boat motor_throttle
    <= Motor.maximum_input_power (Boat.motor boat)
  /\ Boat.target_esc_input_power boat motor_throttle
    <= ESC.maximum_input_power (Boat.esc boat)
  /\ (0 <= ESC.maximum_input_power (Boat.esc boat) ->
      0 <= Motor.maximum_input_power (Boat.motor boat) ->
      0 <= Propulsion.maximum_input_power (Boat.propulsion boat) ->
      0 <= Boat.target_esc_input_power boat motor_throttle).
Proof.
  unfold Boat.target_esc_input_power, Propulsion.solve_input,
    Motor.solve_input.
  set (e := ESC.solve_input (Boat.esc boat) motor_throttle).
  assert (He : e <= ESC.maximum_input_power (Boat.esc boat))
    by (apply cap_le_limit).
  set (m := if gt_dec e (Motor.maximum_input_power (Boat.motor boat))
            then Motor.maximum_input_power (Boat.motor boat) else e).
  assert (Hm1 : m <= Motor.maximum_input_power (Boat.motor boat))
    by (apply cap_le_limit).
  assert (Hm2 : m <= e) by (apply cap_le_input).
  pose proof (cap_le_limit m
                (Propulsion.maximum_input_power (Boat.propulsion boat))) as Hp1.
  pose proof (cap_le_input m
                (Propulsion.maximum_input_power (Boat.propulsion boat))) as Hp2.
  split_and; try lra.
  intros Hesc Hmotor Hprop.
  apply cap_nonneg; [ | exact Hprop ].
  apply cap_nonneg; [ | exact Hmotor ].
  apply esc_input_nonneg. exact Hesc.
Qed.

Lemma target_within_every_limit_witness :
  0 <= Boat.target_esc_input_power example_boat 0.5.
Proof.
  apply (target_within_every_limit example_boat 0.5); discriminate.
Defined.

Lemma esc_input_negative_limit (e : ESC.t) (throttle : Q) :
  ESC.maximum_input_power e < 0 ->
  ESC.solve_input e throttle == ESC.maximum_input_power e.
Proof.
  intros Hmax. unfold ESC.solve_input, gt_dec.
  destruct (np_clip_unit throttle) as [H0 H1].
  set (c := np_clip throttle 0 1) in *.
  destruct (Qlt_le_dec (ESC.maximum_input_power e)
              (c * ESC.maximum_input_power e)) as [_ | Hle];
    [ reflexivity | nra ].
Qed.

Lemma esc_input_monotone (e : ESC.t) (t1 t2 : Q) :
  t1 <= t2 -> ESC.solve_input e t1 <= ESC.solve_input e t2.
Proof.
  intros Ht.
  destruct (Qlt_le_dec (ESC.maximum_input_power e) 0) as [Hneg | Hpos].
  - rewrite (esc_input_negative_limit e t1 Hneg).
    rewrite (esc_input_negative_limit e t2 Hneg). apply Qle_refl.
  - unfold ESC.solve_input. apply cap_monotone.
    apply Qmult_le_compat_r; [ | exact Hpos ].
    apply np_clip_monotone. exact Ht.
Qed.

(** X3.  The target of the propulsion chain never decreases when the
    throttle increases (with a negative ESC limit it is constant). *)
Theorem target_monotone_in_throttle (boat : Boat.t) (t1 t2 : Q) :
  t1 <= t2 ->
  Boat.target_esc_input_power boat t1 <= Boat.target_esc_input_power boat t2.
Proof.
  intros Ht.
  unfold Boat.target_esc_input_power, Propulsion.solve_input,
    Motor.solve_input.
  apply cap_monotone. apply cap_monotone.
  apply esc_input_monotone. exact Ht.
Qed.

Lemma target_monotone_in_throttle_witness :
  Boat.target_esc_input_power example_boat 0.25
  <= Boat.target_esc_input_power example_boat 0.75.
Proof.
  apply (target_monotone_in_throttle example_boat 0.25 0.75). discriminate.
Defined.

(** ** The battery, from construction to a step *)

(** X4.  With a [maximum_energy] that is not negative and
    [minimum_soc <= soc_0 <= 1], the battery that [__init__] builds satisfies
    the energy invariant: [minimum_energy] is [maximum_energy * minimum_soc]
    and the energy [soc_0 * maximum_energy] lies between it and
    [maximum_energy].  Nothing in [__init__] checks those conditions. *)
Theorem init_invariant
    (soc_0 minimum_soc efficiency maximum_energy maximum_power : Q) :
  0 <= maximum_energy ->
  minimum_soc <= soc_0 ->
  soc_0 <= 1 ->
  Battery.invariant
    (Battery.init soc_0 minimum_soc efficiency maximum_energy maximum_power).
Proof.
  intros Hmax Hlo Hhi. unfold Battery.invariant. cbn.
  split_and; [ reflexivity | nra | nra ].
Qed.

Lemma init_invariant_witness : Battery.invariant example_battery.
Proof.
  apply (init_invariant 0.5 0.1 0.95 1000 500); discriminate.
Defined.

(** X5.  For [dt > 0] and a [maximum_energy] that is not zero, [solve]
    returns, and never more than it was asked: at most the target when the
    target is positive, at least the target (a discharge of at most its
    magnitude) otherwise.  A clamp only ever takes a power that is not
    negative off the request. *)
Theorem solve_never_returns_more_than_asked
    (b : Battery.t) (dt target_power : Q) :
  0 < dt ->
  ~ Battery.maximum_energy b == 0 ->
  exists power b',
    Battery.solve dt target_power b = (Ok power, b')
    /\ (0 < target_power -> power <= target_power)
    /\ (target_power <= 0 -> target_power <= power).
Proof.
  intros Hdt Hmax.
  assert (Hdt0 : ~ dt == 0) by lra.
  set (P := Qabs target_power).
  destruct (Qlt_le_dec 0 target_power) as [Hpos | Hneg].
  - assert (HP : P == target_power) by (apply Qabs_pos; lra).
    destruct (Qlt_le_dec (Battery.maximum_energy b) (charged b dt P))
      as [Hover | Hin].
    + rewrite (solve_charging _ _ _ _ _ Hpos (charge_over b dt _ Hdt0 Hover)).
      cbn. destruct (Qeq_dec (Battery.maximum_energy b) 0); [ contradiction | ].
      do 2 eexists. split; [ reflexivity | ].
      assert (Hgiven : 0 < (charged b dt P - Battery.maximum_energy b)
                           * 3600 / dt)
        by (apply power_of_energy_positive; [ exact Hdt | lra ]).
      split; intros; lra.
    + rewrite (solve_charging _ _ _ _ _ Hpos (charge_within b dt _ Hin)).
      cbn. destruct (Qeq_dec (Battery.maximum_energy b) 0); [ contradiction | ].
      do 2 eexists. split; [ reflexivity | ]. split; intros; lra.
  - assert (HP : P == - target_power) by (apply Qabs_neg; exact Hneg).
    destruct (Qlt_le_dec (discharged b dt P) (Battery.minimum_energy b))
      as [Hunder | Hin].
    + rewrite (solve_discharging _ _ _ _ _ Hneg
                 (discharge_under b dt _ Hdt0 Hunder)).
      cbn. destruct (Qeq_dec (Battery.maximum_energy b) 0); [ contradiction | ].
      do 2 eexists. split; [ reflexivity | ].
      assert (Hgiven : 0 < (Battery.minimum_energy b - discharged b dt P)
                           * 3600 / dt)
        by (apply power_of_energy_positive; [ exact Hdt | lra ]).
      split; intros; lra.
    + rewrite (solve_discharging _ _ _ _ _ Hneg (discharge_within b dt _ Hin)).
      cbn. destruct (Qeq_dec (Battery.maximum_energy b) 0); [ contradiction | ].
      do 2 eexists. split; [ reflexivity | ]. split; intros; lra.
Qed.

Lemma solve_never_returns_more_than_asked_witness :
  exists power b',
    Battery.solve 3600 (-1000) example_battery = (Ok power, b')
    /\ -1000 <= power.
Proof.
  destruct (solve_never_returns_more_than_asked example_battery 3600 (-1000))
    as (p & b' & Hrun & _ & Hneg).
  - reflexivity.
  - discriminate.
  - exists p, b'. split; [ exact Hrun | ]. apply Hneg. discriminate.
Defined.

(** X7.  A step that asks for nothing, [dt = 0] or a target of 0, on a
    battery whose energy is within its bounds and whose [maximum_energy] is
    not zero: [solve] returns the target, divides by [dt] nowhere, leaves the
    energy as it was and sets [soc] to [energy / maximum_energy]. *)
Theorem solve_idle (b : Battery.t) (dt target_power : Q) :
  target_power * dt == 0 ->
  Battery.minimum_energy b <= Battery.energy b ->
  Battery.energy b <= Battery.maximum_energy b ->
  ~ Battery.maximum_energy b == 0 ->
  exists power b',
    Battery.solve dt target_power b = (Ok power, b')
    /\ power == target_power
    /\ Battery.energy b' == Battery.energy b
    /\ Battery.soc b' == Battery.energy b / Battery.maximum_energy b.
Proof.
  intros Hzero Hlo Hhi Hmax.
  assert (Hnone : Qabs target_power * dt == 0).
  { destruct (Qmult_integral _ _ Hzero) as [Ht | Hd].
    - rewrite Ht. reflexivity.
    - rewrite Hd. ring. }
  assert (Hstored : Qabs target_power * dt / 3600 * Battery.efficiency b == 0)
    by (rewrite Hnone; reflexivity).
  destruct (Qlt_le_dec 0 target_power) as [Hpos | Hneg].
  - assert (Hin : charged b dt (Qabs target_power) <= Battery.maximum_energy b)
      by (unfold charged; lra).
    rewrite (solve_charging _ _ _ _ _ Hpos (charge_within b dt _ Hin)).
    cbn. destruct (Qeq_dec (Battery.maximum_energy b) 0); [ contradiction | ].
    do 2 eexists. split; [ reflexivity | ]. cbn. unfold charged.
    split_and.
    + apply Qabs_pos. lra.
    + lra.
    + rewrite Hstored. rewrite Qplus_0_r. reflexivity.
  - assert (Hin : Battery.minimum_energy b
                  <= discharged b dt (Qabs target_power))
      by (unfold discharged; lra).
    rewrite (solve_discharging _ _ _ _ _ Hneg (discharge_within b dt _ Hin)).
    cbn. destruct (Qeq_dec (Battery.maximum_energy b) 0); [ contradiction | ].
    do 2 eexists. split; [ reflexivity | ]. cbn. unfold discharged.
    split_and.
    + rewrite (Qabs_neg target_power Hneg). ring.
    + lra.
    + rewrite Hstored. unfold Qminus. rewrite Qplus_0_r. reflexivity.
Qed.

Lemma solve_idle_witness :
  exists power b',
    Battery.solve 0 270 example_battery = (Ok power, b')
    /\ power == 270
    /\ Battery.energy b' == Battery.energy example_battery.
Proof.
  destruct (solve_idle example_battery 0 270)
    as (p & b' & Hrun & Hp & Hen & _).
  - reflexivity.
  - discriminate.
  - discriminate.
  - discriminate.
  - exists p, b'. split; [ exact Hrun | split; [ exact Hp | exact Hen ] ].
Defined.

Lemma solve_frame (b : Battery.t) (dt target_power : Q) :
  exists e s,
    snd (Battery.solve dt target_power b)
    = Battery.set_soc (Battery.set_energy b e) s.
Proof.
  unfold Battery.solve, bind, get, lift, put, ret.
  destruct (gt_dec target_power 0).
  - destruct (charge_touches_energy_only b dt (Qabs target_power)) as [e He].
    destruct (Battery._charge dt (Qabs target_power) b) as [[p | ex] b1];
      cbn in He; subst b1.
    + unfold py_div. destruct (Qeq_dec _ 0).
      * exists e, (Battery.soc b). reflexivity.
      * eexists e, _. reflexivity.
    + exists e, (Battery.soc b). reflexivity.
  - destruct (discharge_touches_energy_only b dt (Qabs target_power))
      as [e He].
    destruct (Battery._discharge dt (Qabs target_power) b) as [[p | ex] b1];
      cbn in He; subst b1.
    + unfold py_div. destruct (Qeq_dec _ 0).
      * exists e, (Battery.soc b). reflexivity.
      * eexists e, _. reflexivity.
    + exists e, (Battery.soc b). reflexivity.
Qed.

(** X8.  [solve] writes [energy] and [soc] and nothing else: the
    efficiency, the minimum SOC, the two energy bounds and the maximum power
    are after the call what they were before, also when the call raises. *)
Theorem solve_writes_energy_and_soc_only (b : Battery.t) (dt target_power : Q) :
  let b' := snd (Battery.solve dt target_power b) in
  Battery.efficiency b' = Battery.efficiency b
  /\ Battery.minimum_soc b' = Battery.minimum_soc b
  /\ Battery.maximum_energy b' = Battery.maximum_energy b
  /\ Battery.minimum_energy b' = Battery.minimum_energy b
  /\ Battery.maximum_power b' = Battery.maximum_power b.
Proof.
  destruct (solve_frame b dt target_power) as (e & s & H).
  cbv zeta. rewrite H. cbn. split_and; reflexivity.
Qed.

(** ** One step of the boat *)

Lemma solve_returns_fresh_soc (b b' : Battery.t) (dt target_power p : Q) :
  Battery.solve dt target_power b = (Ok p, b') ->
  Battery.soc b' = Battery.energy b' / Battery.maximum_energy b
  /\ Battery.maximum_energy b' = Battery.maximum_energy b.
Proof.
  unfold Battery.solve, bind, get, lift, put, ret.
  destruct (gt_dec target_power 0).
  - destruct (charge_touches_energy_only b dt (Qabs target_power)) as [e He].
    destruct (Battery._charge dt (Qabs target_power) b) as [[pw | ex] b1];
      cbn in He; subst b1; [ | discriminate ].
    unfold py_div. destruct (Qeq_dec _ 0); [ discriminate | ].
    intros H. injection H as _ <-. split; reflexivity.
  - destruct (discharge_touches_energy_only b dt (Qabs target_power))
      as [e He].
    destruct (Battery._discharge dt (Qabs target_power) b) as [[pw | ex] b1];
      cbn in He; subst b1; [ | discriminate ].
    unfold py_div. destruct (Qeq_dec _ 0); [ discriminate | ].
    intros H. injection H as _ <-. split; reflexivity.
Qed.

(** X9.  [Boat.run] changes nothing of the boat but the [energy] and the
    [soc] of its battery, also when it raises.  When it returns, the record's
    [battery_stored_energy] and [battery_soc] are those of the battery after
    the step, and [battery_soc] is [battery_stored_energy] divided by the
    battery's [maximum_energy]. *)
Theorem run_touches_battery_state_only
    (boat : Boat.t) (dt irradiation motor_throttle : Q) :
  (exists e s,
     snd (Boat.run dt irradiation motor_throttle boat)
     = Boat.set_battery boat
         (Battery.set_soc (Battery.set_energy (Boat.battery boat) e) s))
  /\
  (forall out boat',
     Boat.run dt irradiation motor_throttle boat = (Ok out, boat') ->
     battery_stored_energy out = Battery.energy (Boat.battery boat')
     /\ battery_soc out = Battery.soc (Boat.battery boat')
     /\ battery_soc out
        = battery_stored_energy out
          / Battery.maximum_energy (Boat.battery boat)).
Proof.
  rewrite run_unfold.
  destruct (solve_frame (Boat.battery boat) dt
              (target_battery_power boat irradiation motor_throttle))
    as (e & s & Hframe).
  destruct (Battery.solve _ _ _) as [[p | ex] b'] eqn:Hsolve; cbn in Hframe.
  - split; [ exists e, s; cbn; rewrite Hframe; reflexivity | ].
    intros out boat' H. injection H as <- <-. cbn.
    destruct (solve_returns_fresh_soc _ _ _ _ _ Hsolve) as [Hs _].
    split_and; try reflexivity. exact Hs.
  - split; [ exists e, s; cbn; rewrite Hframe; reflexivity | ].
    intros out boat' H. discriminate H.
Qed.

Lemma run_touches_battery_state_only_witness :
  exists out boat',
    Boat.run 1 800 0 example_boat = (Ok out, boat')
    /\ battery_soc out
       = battery_stored_energy out
         / Battery.maximum_energy (Boat.battery example_boat).
Proof.
  destruct (run_returns example_boat 1 800 0) as (out & boat' & Hrun);
    [ discriminate | discriminate | ].
  exists out, boat'. split; [ exact Hrun | ].
  apply (proj2 (run_touches_battery_state_only example_boat 1 800 0)
           out boat' Hrun).
Defined.

(** ** The loop over the events *)

Section CompetitionLoop.

Context {Row Event EventOutputData EnergyController : Type}.
Variable time : Row -> Z.
Variable start end_ : Event -> Z.
Variable Event_run :
  Event -> list Row -> Boat.t * EnergyController ->
  (EventOutputData + string) * (Boat.t * EnergyController).

Lemma run_events_returns (events : list Event) (input_data : list Row) :
  forall (acc rs : list EventOutputData) (s s' : Competition.state),
    Competition.run_events time start end_ Event_run events input_data acc s
    = (Ok rs, s') ->
    List.length rs = (List.length acc + List.length events)%nat
    /\ Competition.event_runs s'
       = (Competition.event_runs s + List.length events)%nat.
Proof.
  induction events as [| event rest IH]; intros acc rs s s'.
  - cbn. unfold ret. intros H. injection H as <- <-. lia.
  - cbn [Competition.run_events]. unfold bind, Competition.call_event_run.
    destruct (Event_run _ _ _) as [[out | description] [b c]];
      [ | discriminate ].
    intros H. apply IH in H. cbn in H. rewrite List.length_app in H. cbn in *. lia.
Qed.

Lemma run_events_raises (events : list Event) (input_data : list Row) :
  forall (acc : list EventOutputData) (e : exn) (s s' : Competition.state),
    Competition.run_events time start end_ Event_run events input_data acc s
    = (Raise e, s') ->
    (exists description, e = External description)
    /\ (Competition.event_runs s < Competition.event_runs s'
        <= Competition.event_runs s + List.length events)%nat.
Proof.
  induction events as [| event rest IH]; intros acc e s s'.
  - cbn. unfold ret. discriminate.
  - cbn [Competition.run_events]. unfold bind, Competition.call_event_run.
    destruct (Event_run _ _ _) as [[out | description] [b c]].
    + intros H. apply IH in H. cbn in *. split; [ tauto | lia ].
    + intros H. injection H as <- <-. cbn. split; [ eauto | lia ].
Qed.

(** X12.  When [Competition.run] returns, its result carries the
    competition's name and one output per event, and [event.run] has been
    called once for each event. *)
Theorem run_one_result_per_event
    (self : Competition.t) (input_data : list Row)
    (s s' : Competition.state) (r : Competition.CompetitionResult) :
  Competition.run time start end_ Event_run self input_data s = (Ok r, s') ->
  Competition.result_name r = Competition.name self
  /\ List.length (Competition.results r) = List.length (Competition.events self)
  /\ Competition.event_runs s'
     = (Competition.event_runs s + List.length (Competition.events self))%nat.
Proof.
  unfold Competition.run, bind, lift, ret.
  destruct (index_first (Competition.events self)); [ | discriminate ].
  destruct (index_last (Competition.events self)); [ | discriminate ].
  destruct (Competition._check_input _ _ _ _); [ | discriminate ].
  destruct (Competition.run_events _ _ _ _ _ _ _ _) as [[rs | e] s1] eqn:Hloop;
    [ | discriminate ].
  intros H. injection H as <- <-.
  apply run_events_returns in Hloop. cbn in *. split_and; [ reflexivity | | ];
    tauto.
Qed.

(** X13.  When [Competition.run] raises, either nothing has happened (the
    state is the one before the call, [event.run] was never called, and the
    exception is [IndexError] or [ValueError]), or the exception is the one
    an event raised, at least one and at most all of the events having been
    run. *)
Theorem run_failure_modes
    (self : Competition.t) (input_data : list Row)
    (s s' : Competition.state) (e : exn) :
  Competition.run time start end_ Event_run self input_data s = (Raise e, s') ->
  (s' = s /\ (e = IndexError \/ exists message, e = ValueError message))
  \/ ((exists description, e = External description)
      /\ (Competition.event_runs s < Competition.event_runs s'
          <= Competition.event_runs s
             + List.length (Competition.events self))%nat).
Proof.
  unfold Competition.run, bind, lift, ret.
  destruct (Competition.events self) as [| first_event others].
  - cbn. intros H. injection H as <- <-. left. split; [ reflexivity | tauto ].
  - destruct (index_last_cons first_event others) as [last_event Hlast].
    rewrite Hlast. cbn [index_first].
    pose proof (check_input_outcome time input_data (start first_event)
                  (end_ last_event)) as Hcheck.
    destruct (Competition._check_input _ _ _ _) as [[] | e0].
    + destruct (Competition.run_events _ _ _ _ _ _ _ _) as [[rs | e1] s1]
        eqn:Hloop; [ discriminate | ].
      intros H. injection H as <- <-. right.
      exact (run_events_raises _ _ _ _ _ _ Hloop).
    + intros H. injection H as <- <-. left. split; [ reflexivity | ].
      destruct e0 as [ | | message | description ]; try contradiction.
      * left. reflexivity.
      * right. exists message. reflexivity.
Qed.

(** X14.  [Competition.run] raises [IndexError] exactly when the
    competition has no event or the input series has no row. *)
Theorem run_index_error
    (self : Competition.t) (input_data : list Row) (s : Competition.state) :
  fst (Competition.run time start end_ Event_run self input_data s)
  = Raise IndexError
  <-> Competition.events self = [] \/ input_data = [].
Proof.
  unfold Competition.run, bind, lift, ret.
  destruct (Competition.events self) as [| first_event others].
  - cbn. split; [ intros _; left; reflexivity | reflexivity ].
  - destruct (index_last_cons first_event others) as [last_event Hlast].
    rewrite Hlast. cbn [index_first].
    destruct input_data as [| first_row rest].
    + cbn. split; [ intros _; right; reflexivity | reflexivity ].
    + pose proof (check_input_outcome time (first_row :: rest)
                    (start first_event) (end_ last_event)) as Hcheck.
      split; [ | intros [H | H]; discriminate H ].
      destruct (Competition._check_input _ _ _ _) as [[] | e0].
      * pose proof (run_events_outcome time start end_ Event_run
                      (first_event :: others)
                      (Competition.select time (start first_event)
                         (end_ last_event) (first_row :: rest)) [] s) as Hloop.
        destruct (Competition.run_events _ _ _ _ _ _ _ _) as [[rs | e1] s1].
        -- cbn. discriminate.
        -- cbn in *. intros H. injection H as ->. contradiction.
      * cbn. intros H. injection H as ->. discriminate Hcheck.
Qed.


End CompetitionLoop.

Lemma run_one_result_per_event_witness :
  exists r s',
    run_windows (Competition.mk "covered" [(0, 4)%Z; (5, 10)%Z])
      example_input example_state = (Ok r, s')
    /\ List.length (Competition.results r) = 2%nat
    /\ Competition.event_runs s' = 2%nat.
Proof.
  do 2 eexists. split; [ vm_compute; reflexivity | ].
  refine (proj2 (run_one_result_per_event (fun t : Z => t) fst snd window_run
                   (Competition.mk "covered" [(0, 4)%Z; (5, 10)%Z])
                   example_input example_state _ _ _)).
  vm_compute. reflexivity.
Defined.

Lemma run_failure_modes_witness :
  exists e s',
    run_windows (Competition.mk "early" [(-1, 10)%Z]) example_input
      example_state = (Raise e, s')
    /\ s' = example_state.
Proof.
  do 2 eexists. split; [ vm_compute; reflexivity | ].
  destruct (run_failure_modes (fun t : Z => t) fst snd window_run
              (Competition.mk "early" [(-1, 10)%Z]) example_input
              example_state _ _ eq_refl) as [[Hs _] | [[d Hd] _]].
  - exact Hs.
  - discriminate Hd.
Defined.


(** ** The drivetrain after the step *)



